(** * jabra_hiddev_demo: call control over the Linux hiddev interface

    A shallow embedding of [linux-examples/hiddev/jabra_hiddev_demo.c].
    The program talks to the kernel through [ioctl], [read], [select] and
    the pthread library.  Everything on the other side of that boundary is
    an interface ([Kernel]) whose state is threaded through the program;
    every call the program makes is appended to a trace, so that what was
    sent to the device, and in which order, can be stated. *)

From Stdlib Require Import ZArith List String Ascii Bool Lia.
From Stdlib Require DecimalString.
Import ListNotations.
Local Open Scope string_scope.
Local Open Scope Z_scope.

(** ** Machine integers *)

(** [unsigned] and [__u32] values are kept in [0, 2^32). *)
Definition wrap_u32 (z : Z) : Z := z mod 2 ^ 32.

(** The cast [(__u16) z]. *)
Definition wrap_u16 (z : Z) : Z := z mod 2 ^ 16.

(** C's [!x] on an [int]. *)
Definition c_not (x : Z) : Z := if x =? 0 then 1 else 0.

(** The truth value C gives to an [int] used as a condition. *)
Definition c_true (x : Z) : bool := negb (x =? 0).

(** ** Protocol constants *)

Definition JABRA_VID : Z := wrap_u16 0x0B0E.

Definition TelephonyUsagePage : Z := wrap_u16 0x000B.
Definition ConsumerUsagePage : Z := wrap_u16 0x000C.
Definition LEDUsagePage : Z := wrap_u16 0x0008.
Definition ButtonUsagePage : Z := wrap_u16 0x0009.

Definition Led_Mute : Z := wrap_u16 0x0009.
Definition Led_Off_Hook : Z := wrap_u16 0x0017.
Definition Led_Ring : Z := wrap_u16 0x0018.

Definition Tel_Hook_Switch : Z := wrap_u16 0x0020.
Definition Tel_Phone_Mute : Z := wrap_u16 0x002F.
Definition Tel_Ringer : Z := wrap_u16 0x009E.

Definition Con_Volume_Incr : Z := wrap_u16 0x00E9.
Definition Con_Volume_Decr : Z := wrap_u16 0x00EA.

(** From <linux/hiddev.h>, <errno.h>. *)
Definition HID_REPORT_ID_UNKNOWN : Z := 0xffffffff.
Definition HID_REPORT_TYPE_INPUT : Z := 1.
Definition HID_REPORT_TYPE_OUTPUT : Z := 2.
Definition HID_REPORT_TYPE_FEATURE : Z := 3.
Definition ENOENT : Z := 2.
Definition EACCES : Z := 13.

(** ** The hiddev structures (<linux/hiddev.h>) *)

Record hiddev_event := {
  hid : Z;          (* unsigned *)
  ev_value : Z      (* signed int *)
}.

Record hiddev_devinfo := {
  bustype : Z; busnum : Z; devnum : Z; ifnum : Z;
  vendor : Z;       (* __s16 *)
  product : Z; version : Z; num_applications : Z
}.

Record hiddev_report_info := {
  ri_report_type : Z;
  ri_report_id : Z;
  ri_num_fields : Z
}.

Record hiddev_field_info := {
  fi_report_type : Z;
  fi_report_id : Z;
  fi_field_index : Z;
  maxusage : Z;
  flags : Z;
  physical : Z;
  logical : Z;
  application : Z;
  logical_minimum : Z;   (* __s32 *)
  logical_maximum : Z;   (* __s32 *)
  physical_minimum : Z;
  physical_maximum : Z;
  unit_exponent : Z;
  unit : Z
}.

Record hiddev_usage_ref := {
  ur_report_type : Z;
  ur_report_id : Z;
  ur_field_index : Z;
  ur_usage_index : Z;
  ur_usage_code : Z;
  ur_value : Z           (* __s32 *)
}.

(** Assignments to single members. *)
Definition uref_set_key (rt rid code : Z) (u : hiddev_usage_ref) :=
  {| ur_report_type := rt; ur_report_id := rid;
     ur_field_index := ur_field_index u; ur_usage_index := ur_usage_index u;
     ur_usage_code := code; ur_value := ur_value u |}.

Definition uref_set_value (v : Z) (u : hiddev_usage_ref) :=
  {| ur_report_type := ur_report_type u; ur_report_id := ur_report_id u;
     ur_field_index := ur_field_index u; ur_usage_index := ur_usage_index u;
     ur_usage_code := ur_usage_code u; ur_value := v |}.

Definition finfo_set_key (rt rid idx : Z) (f : hiddev_field_info) :=
  {| fi_report_type := rt; fi_report_id := rid; fi_field_index := idx;
     maxusage := maxusage f; flags := flags f; physical := physical f;
     logical := logical f; application := application f;
     logical_minimum := logical_minimum f;
     logical_maximum := logical_maximum f;
     physical_minimum := physical_minimum f;
     physical_maximum := physical_maximum f;
     unit_exponent := unit_exponent f; unit := unit f |}.

Definition rinfo_set_key (rt rid : Z) (r : hiddev_report_info) :=
  {| ri_report_type := rt; ri_report_id := rid;
     ri_num_fields := ri_num_fields r |}.

(** ** What the program does to the outside world *)

Inductive stream := stdout | stderr.

Inductive printf_arg :=
| PStr (s : string)
| PInt (z : Z).

Inductive effect :=
| Ioctl_GUSAGE (fd : Z) (arg : hiddev_usage_ref) (ret : Z)
| Ioctl_GFIELDINFO (fd : Z) (arg : hiddev_field_info) (ret : Z)
| Ioctl_SUSAGE (fd : Z) (arg : hiddev_usage_ref) (ret : Z)
| Ioctl_SREPORT (fd : Z) (arg : hiddev_report_info) (ret : Z)
| Ioctl_other (fd : Z) (request : string) (ret : Z)
| Open (path : string) (ret : Z)
| Close (fd : Z)
| Select (fd : Z) (ret : Z)
| Read (fd : Z) (count : Z) (ret : Z)
| Fcntl_nonblock (fd : Z)
| Usleep (usec : Z)
| Perror (s : string) (errno : Z)
| Fprintf (to : stream) (format : string) (args : list printf_arg)
| Fflush (to : stream)
| Mutex_lock
| Mutex_unlock
| Pthread_create (ret : Z)
| Pthread_join (ret : Z).

(** ** The kernel side of the system-call boundary

    [K] is the state of everything the program cannot see: the device, the
    files, the scheduler, and the bytes that happen to lie in automatic
    variables before they are assigned.  A call gets the state and the
    argument as the program passes it, and gives the return value, what it
    stored through the argument pointer, and the next state.  Nothing is
    assumed about the answers. *)

Class Kernel (K : Type) := {
  HIDIOCGUSAGE : K -> Z -> hiddev_usage_ref -> Z * hiddev_usage_ref * K;
  HIDIOCGFIELDINFO : K -> Z -> hiddev_field_info -> Z * hiddev_field_info * K;
  HIDIOCSUSAGE : K -> Z -> hiddev_usage_ref -> Z * K;
  HIDIOCSREPORT : K -> Z -> hiddev_report_info -> Z * K;
  HIDIOCGDEVINFO : K -> Z -> Z * hiddev_devinfo * K;
  HIDIOCGNAME : K -> Z -> Z * string * K;
  HIDIOCGVERSION : K -> Z -> Z * K;
  HIDIOCINITREPORT : K -> Z -> Z * K;
  sys_open : K -> string -> Z * K;
  sys_close : K -> Z -> K;
  sys_select : K -> Z -> Z * K;
  (** [read(fd, ev, count)] on the device: the return value and the
      contents of the 64 slots of [ev] afterwards. *)
  sys_read_events : K -> Z -> Z -> Z * (nat -> hiddev_event) * K;
  (** [read(0, &c, 1)]: the return value and the byte in [c] afterwards. *)
  sys_read_char : K -> Z * ascii * K;
  sys_pthread_create : K -> Z * K;
  sys_pthread_join : K -> Z * K;
  errno : K -> Z;
  (** Contents of automatic variables before their first assignment. *)
  auto_usage_ref : K -> hiddev_usage_ref;
  auto_field_info : K -> hiddev_field_info;
  auto_report_info : K -> hiddev_report_info
}.

(** ** Program state *)

(** The [int] objects an [__s32*] argument can point to: the file-scope
    variables of the program, or some other object of the caller. *)
Inductive int_ptr :=
| Addr_mutestate
| Addr_hookstate
| Addr_ringerstate
| Addr_run
| Addr_other (n : nat).

Section Program.

Context {K : Type} `{Kernel K}.

(** The file-scope variables [fd], [mutestate], [hookstate], [ringerstate]
    and [run], next to the kernel state and the trace of calls made so
    far (oldest first). *)
Record World := {
  kernel : K;
  trace : list effect;
  fd : Z;
  mutestate : Z;
  hookstate : Z;
  ringerstate : Z;
  run : Z;
  other_ints : nat -> Z
}.

Definition set_kernel (k : K) (w : World) : World :=
  {| kernel := k; trace := trace w; fd := fd w; mutestate := mutestate w;
     hookstate := hookstate w; ringerstate := ringerstate w; run := run w;
     other_ints := other_ints w |}.

Definition emit (e : effect) (w : World) : World :=
  {| kernel := kernel w; trace := trace w ++ [e]; fd := fd w;
     mutestate := mutestate w; hookstate := hookstate w;
     ringerstate := ringerstate w; run := run w;
     other_ints := other_ints w |}.

Definition set_fd (v : Z) (w : World) : World :=
  {| kernel := kernel w; trace := trace w; fd := v; mutestate := mutestate w;
     hookstate := hookstate w; ringerstate := ringerstate w; run := run w;
     other_ints := other_ints w |}.

Definition set_mutestate (v : Z) (w : World) : World :=
  {| kernel := kernel w; trace := trace w; fd := fd w; mutestate := v;
     hookstate := hookstate w; ringerstate := ringerstate w; run := run w;
     other_ints := other_ints w |}.

Definition set_hookstate (v : Z) (w : World) : World :=
  {| kernel := kernel w; trace := trace w; fd := fd w;
     mutestate := mutestate w; hookstate := v;
     ringerstate := ringerstate w; run := run w;
     other_ints := other_ints w |}.

Definition set_ringerstate (v : Z) (w : World) : World :=
  {| kernel := kernel w; trace := trace w; fd := fd w;
     mutestate := mutestate w; hookstate := hookstate w;
     ringerstate := v; run := run w; other_ints := other_ints w |}.

Definition set_run (v : Z) (w : World) : World :=
  {| kernel := kernel w; trace := trace w; fd := fd w;
     mutestate := mutestate w; hookstate := hookstate w;
     ringerstate := ringerstate w; run := v; other_ints := other_ints w |}.

Definition set_other (n : nat) (v : Z) (w : World) : World :=
  {| kernel := kernel w; trace := trace w; fd := fd w;
     mutestate := mutestate w; hookstate := hookstate w;
     ringerstate := ringerstate w; run := run w;
     other_ints := fun m => if Nat.eqb m n then v else other_ints w m |}.

(** [*p] and [*p = v]. *)
Definition load (p : int_ptr) (w : World) : Z :=
  match p with
  | Addr_mutestate => mutestate w
  | Addr_hookstate => hookstate w
  | Addr_ringerstate => ringerstate w
  | Addr_run => run w
  | Addr_other n => other_ints w n
  end.

Definition store (p : int_ptr) (v : Z) (w : World) : World :=
  match p with
  | Addr_mutestate => set_mutestate v w
  | Addr_hookstate => set_hookstate v w
  | Addr_ringerstate => set_ringerstate v w
  | Addr_run => set_run v w
  | Addr_other n => set_other n v w
  end.

(** ** Calls across the boundary, each leaving its mark on the trace *)

Definition ioctl_GUSAGE (d : Z) (u : hiddev_usage_ref) (w : World)
  : Z * hiddev_usage_ref * World :=
  let '(ret, u', k) := HIDIOCGUSAGE (kernel w) d u in
  (ret, u', emit (Ioctl_GUSAGE d u ret) (set_kernel k w)).

Definition ioctl_GFIELDINFO (d : Z) (f : hiddev_field_info) (w : World)
  : Z * hiddev_field_info * World :=
  let '(ret, f', k) := HIDIOCGFIELDINFO (kernel w) d f in
  (ret, f', emit (Ioctl_GFIELDINFO d f ret) (set_kernel k w)).

Definition ioctl_SUSAGE (d : Z) (u : hiddev_usage_ref) (w : World)
  : Z * World :=
  let '(ret, k) := HIDIOCSUSAGE (kernel w) d u in
  (ret, emit (Ioctl_SUSAGE d u ret) (set_kernel k w)).

Definition ioctl_SREPORT (d : Z) (r : hiddev_report_info) (w : World)
  : Z * World :=
  let '(ret, k) := HIDIOCSREPORT (kernel w) d r in
  (ret, emit (Ioctl_SREPORT d r ret) (set_kernel k w)).

Definition perror (s : string) (w : World) : World :=
  emit (Perror s (errno (kernel w))) w.

Definition fprintf (to : stream) (format : string) (args : list printf_arg)
  (w : World) : World :=
  emit (Fprintf to format args) w.

Definition pthread_mutex_lock (w : World) : World := emit Mutex_lock w.
Definition pthread_mutex_unlock (w : World) : World := emit Mutex_unlock w.

(** ** usagePageName *)

Definition usagePageName (usage_code : Z) : string :=
  let hi := wrap_u16 (Z.land (Z.shiftr usage_code 16) 0xFFFF) in
  if hi =? TelephonyUsagePage then "TelephonyUsagePage"
  else if hi =? ConsumerUsagePage then "ConsumerUsagePage"
  else if hi =? LEDUsagePage then "LEDUsagePage"
  else if hi =? ButtonUsagePage then "ButtonUsagePage"
  else "not translated".

(** [(page << 16) | code] on [unsigned] operands. *)
Definition make_usage_code (page code : Z) : Z :=
  Z.lor (wrap_u32 (Z.shiftl page 16)) code.

(** ** writeUsage *)

Definition range_format : string :=
  "%s: value %d outside of allowed range (%d-%d)\n".

Definition writeUsage (d report_type page code value : Z) (w : World)
  : World :=
  (* find the requested usage code *)
  let uref := uref_set_key report_type HID_REPORT_ID_UNKNOWN
                (make_usage_code page code) (auto_usage_ref (kernel w)) in
  let finfo := auto_field_info (kernel w) in
  let rinfo := auto_report_info (kernel w) in
  let '(ret, uref, w) := ioctl_GUSAGE d uref w in
  if ret <? 0 then perror "HIDIOCGUSAGE" w
  else
    (* retrieve field info *)
    let finfo := finfo_set_key (ur_report_type uref) (ur_report_id uref)
                   (ur_field_index uref) finfo in
    let '(ret, finfo, w) := ioctl_GFIELDINFO d finfo w in
    if ret <? 0 then perror "HIDIOCGFIELDINFO" w
    else if (value <? logical_minimum finfo)
            || (value >? logical_maximum finfo)
    then
      fprintf stdout range_format
        [PStr (usagePageName (ur_usage_code uref)); PInt value;
         PInt (logical_minimum finfo); PInt (logical_maximum finfo)] w
    else
      (* set value *)
      let uref := uref_set_value value uref in
      let '(ret, w) := ioctl_SUSAGE d uref w in
      if ret <? 0 then perror "HIDIOCSUSAGE" w
      else
        let rinfo := rinfo_set_key (ur_report_type uref)
                       (ur_report_id uref) rinfo in
        let '(ret, w) := ioctl_SREPORT d rinfo w in
        if ret <? 0 then perror "HIDIOCSREPORT" w else w.

(** ** readUsage *)

Definition readUsage (d report_type page code : Z) (value : int_ptr)
  (w : World) : World :=
  (* find the requested usage code *)
  let uref := uref_set_key report_type HID_REPORT_ID_UNKNOWN
                (make_usage_code page code) (auto_usage_ref (kernel w)) in
  let finfo := auto_field_info (kernel w) in
  let rinfo := auto_report_info (kernel w) in
  let '(ret, uref, w) := ioctl_GUSAGE d uref w in
  if ret <? 0 then perror "HIDIOCGUSAGE" w
  else
    (* retrieve field info *)
    let finfo := finfo_set_key (ur_report_type uref) (ur_report_id uref)
                   (ur_field_index uref) finfo in
    let '(ret, finfo, w) := ioctl_GFIELDINFO d finfo w in
    if ret <? 0 then perror "HIDIOCGFIELDINFO" w
    else
      (* get value *)
      let '(ret, uref, w) := ioctl_GUSAGE d uref w in
      if ret <? 0 then perror "HIDIOCGUSAGE" w
      else
        let w := store value (ur_value uref) w in
        let rinfo := rinfo_set_key (ur_report_type uref)
                       (ur_report_id uref) rinfo in
        let '(ret, w) := ioctl_SREPORT d rinfo w in
        if ret <? 0 then perror "HIDIOCSREPORT" w else w.

(** ** event_loop: what is done with one event

    The body of the [for] loop for [ev[i]], from taking the lock to giving
    it back.  [debug] is the local of that name, which is never set. *)

Definition event_loop_event (ev : hiddev_event) (w : World) : World :=
  let debug := 0 in
  let w := if c_true debug
           then fprintf stdout "Event: %x = %d\n"
                  [PInt (hid ev); PInt (ev_value ev)] w
           else w in
  let w := pthread_mutex_lock w in
  let w :=
    if Z.shiftr (hid ev) 16 =? TelephonyUsagePage then
      if Z.land (hid ev) 0xFFFF =? Tel_Hook_Switch then
        if negb (hookstate w =? ev_value ev) then
          let w :=
            if hookstate w =? 0 then
              let w := writeUsage (fd w) HID_REPORT_TYPE_OUTPUT
                         LEDUsagePage Led_Ring 0 w in
              writeUsage (fd w) HID_REPORT_TYPE_OUTPUT
                TelephonyUsagePage Tel_Ringer 0 w
            else w in
          let w := writeUsage (fd w) HID_REPORT_TYPE_OUTPUT
                     LEDUsagePage Led_Off_Hook (ev_value ev) w in
          let w := set_hookstate (ev_value ev) w in
          if hookstate w =? 0
          then fprintf stdout "--> Hook in place\n" [] w
          else fprintf stdout "--> Hook lifted\n" [] w
        else w
      else if Z.land (hid ev) 0xFFFF =? Tel_Phone_Mute then
        if ev_value ev =? 1 then
          let w := set_mutestate (c_not (mutestate w)) w in
          let w := writeUsage (fd w) HID_REPORT_TYPE_OUTPUT
                     LEDUsagePage Led_Mute (mutestate w) w in
          if mutestate w =? 0
          then fprintf stdout "--> Unmuted\n" [] w
          else fprintf stdout "--> Muted\n" [] w
        else w
      else w
    else if Z.shiftr (hid ev) 16 =? ConsumerUsagePage then
      if Z.land (hid ev) 0xFFFF =? Con_Volume_Decr then
        if c_true (ev_value ev)
        then fprintf stdout "Volume decrement = 0x%x\n" [PInt (ev_value ev)] w
        else w
      else if Z.land (hid ev) 0xFFFF =? Con_Volume_Incr then
        if c_true (ev_value ev)
        then fprintf stdout "Volume increment = 0x%x\n" [PInt (ev_value ev)] w
        else w
      else w
    else w in
  pthread_mutex_unlock w.

(** ** hit_key *)

Definition hit_key (key : ascii) (w : World) : World :=
  if Ascii.eqb key "o" then
    let w := pthread_mutex_lock w in
    let w := set_hookstate (c_not (hookstate w)) w in
    let w :=
      if hookstate w =? 1 then
        let w := writeUsage (fd w) HID_REPORT_TYPE_OUTPUT
                   LEDUsagePage Led_Ring 0 w in
        writeUsage (fd w) HID_REPORT_TYPE_OUTPUT
          TelephonyUsagePage Tel_Ringer 0 w
      else w in
    let w := writeUsage (fd w) HID_REPORT_TYPE_OUTPUT
               LEDUsagePage Led_Off_Hook (hookstate w) w in
    let w := if hookstate w =? 0
             then fprintf stdout "<-- Put back Hook\n" [] w
             else fprintf stdout "<-- Lift Hook\n" [] w in
    pthread_mutex_unlock w
  else if Ascii.eqb key "m" then
    let w := pthread_mutex_lock w in
    let w := set_mutestate (c_not (mutestate w)) w in
    let w := writeUsage (fd w) HID_REPORT_TYPE_OUTPUT
               LEDUsagePage Led_Mute (mutestate w) w in
    let w := if mutestate w =? 0
             then fprintf stdout "<-- Unmute\n" [] w
             else fprintf stdout "<-- Mute\n" [] w in
    pthread_mutex_unlock w
  else if Ascii.eqb key "r" then
    let w := pthread_mutex_lock w in
    let w := set_ringerstate (c_not (ringerstate w)) w in
    let w := writeUsage (fd w) HID_REPORT_TYPE_OUTPUT
               LEDUsagePage Led_Ring (ringerstate w) w in
    let w := writeUsage (fd w) HID_REPORT_TYPE_OUTPUT
               TelephonyUsagePage Tel_Ringer (ringerstate w) w in
    pthread_mutex_unlock w
  else if Ascii.eqb key "q" then
    set_run 0 w
  else if Ascii.eqb key "?" then
    let w := fprintf stdout "Usage:\n" [] w in
    let w := fprintf stdout " o = offhook tooggle\n" [] w in
    let w := fprintf stdout " m = mute tooggle\n" [] w in
    let w := fprintf stdout " r = ringer tooggle\n" [] w in
    let w := fprintf stdout " q = quit\n" [] w in
    fprintf stdout " ? = this help\n" [] w
  else w.

(** ** The remaining calls *)

Definition sys (A : Type) (call : K -> A * K) (mark : A -> effect)
  (w : World) : A * World :=
  let '(a, k) := call (kernel w) in (a, emit (mark a) (set_kernel k w)).
Arguments sys {A} call mark w.

Definition open (path : string) : World -> Z * World :=
  sys (fun k => sys_open k path) (Open path).

Definition close (d : Z) (w : World) : World :=
  emit (Close d) (set_kernel (sys_close (kernel w) d) w).

Definition ioctl_GDEVINFO (d : Z) (w : World)
  : Z * hiddev_devinfo * World :=
  let '(ret, info, k) := HIDIOCGDEVINFO (kernel w) d in
  (ret, info, emit (Ioctl_other d "HIDIOCGDEVINFO" ret) (set_kernel k w)).

Definition ioctl_GNAME (d : Z) (w : World) : Z * string * World :=
  let '(ret, name, k) := HIDIOCGNAME (kernel w) d in
  (ret, name, emit (Ioctl_other d "HIDIOCGNAME" ret) (set_kernel k w)).

Definition ioctl_GVERSION (d : Z) : World -> Z * World :=
  sys (fun k => HIDIOCGVERSION k d) (Ioctl_other d "HIDIOCGVERSION").

Definition ioctl_INITREPORT (d : Z) : World -> Z * World :=
  sys (fun k => HIDIOCINITREPORT k d) (Ioctl_other d "HIDIOCINITREPORT").

Definition select (nfds : Z) : World -> Z * World :=
  sys (fun k => sys_select k nfds) (Select nfds).

Definition read_events (d count : Z) (w : World)
  : Z * (nat -> hiddev_event) * World :=
  let '(ret, ev, k) := sys_read_events (kernel w) d count in
  (ret, ev, emit (Read d count ret) (set_kernel k w)).

Definition read_char (w : World) : Z * ascii * World :=
  let '(ret, c, k) := sys_read_char (kernel w) in
  (ret, c, emit (Read 0 1 ret) (set_kernel k w)).

Definition pthread_create : World -> Z * World :=
  sys sys_pthread_create Pthread_create.

Definition fflush (to : stream) (w : World) : World := emit (Fflush to) w.
Definition usleep (usec : Z) (w : World) : World := emit (Usleep usec) w.
Definition fcntl_nonblock (d : Z) (w : World) : World :=
  emit (Fcntl_nonblock d) w.

(** ** event_loop, one scheduling step at a time

    The thread is followed from one loop head to the next: [EL_while] is
    the test of [while (run == 1)], [EL_for ev rd i] the test of the [for]
    loop over the batch just read, [EL_returned r] the thread after
    [return (void* ) r]. *)

Definition sizeof_ev0 : Z := 8.
Definition sizeof_ev : Z := 64 * sizeof_ev0.

Inductive event_loop_pc :=
| EL_while
| EL_for (ev : nat -> hiddev_event) (rd : Z) (i : Z)
| EL_returned (ret : Z).

Definition event_loop_step (pc : event_loop_pc) (w : World)
  : event_loop_pc * World :=
  match pc with
  | EL_while =>
      if run w =? 1 then
        let '(rd, w) := select (fd w + 1) w in
        if rd >? 0 then
          let '(rd, ev, w) := read_events (fd w) sizeof_ev w in
          if rd <? sizeof_ev0 then
            let w := if rd <? 0
                     then perror "error reading" w
                     else fprintf stderr
                            "got too short read from device\n" [] w in
            let w := set_run 0 w in
            (EL_returned (-1), w)
          else (EL_for ev rd 0, w)
        else (EL_while, fflush stdout w)
      else (EL_returned 0, w)
  | EL_for ev rd i =>
      if i <? rd / sizeof_ev0
      then (EL_for ev rd (i + 1), event_loop_event (ev (Z.to_nat i)) w)
      else (EL_while, fflush stdout w)
  | EL_returned _ => (pc, w)
  end.

(** The thread on its own, for at most [fuel] steps: the value it returns
    with, if it has returned by then. *)
Fixpoint event_loop_from (fuel : nat) (pc : event_loop_pc) (w : World)
  : option Z * World :=
  match pc, fuel with
  | EL_returned r, _ => (Some r, w)
  | _, O => (None, w)
  | _, S fuel' =>
      let '(pc', w') := event_loop_step pc w in
      event_loop_from fuel' pc' w'
  end.

Definition event_loop (fuel : nat) (w : World) : option Z * World :=
  event_loop_from fuel EL_while w.

(** ** main *)

Definition device_path (i : Z) : string :=
  "/dev/usb/hiddev"
  ++ DecimalString.NilZero.string_of_int (Z.to_int i).

Definition doListDev (path : string) (w : World) : Z * World :=
  let '(d, w) := open path w in
  if negb (d =? -1) then
    let '(r, devinfo, w) := ioctl_GDEVINFO d w in
    if r =? -1 then (-1, perror "ioctl HIDIOCGDEVINFO" w)
    else
      let '(r, _, w) := ioctl_GNAME d w in
      if r =? -1 then (-1, perror "ioctl HIDIOCGNAME" w)
      else
        let '(r, w) := ioctl_GVERSION d w in
        if r =? -1 then (-1, perror "ioctl HIDIOCGVERSION" w)
        else (if vendor devinfo =? JABRA_VID then 1 else 0, w)
  else if errno (kernel w) =? ENOENT then (0, w)
  else (-1, perror "ioctl HIDIOCGVERSION" w).

(** [for (i = 0; i < 19; i++)], entered with [i] and [19 - i] rounds to
    go; gives the [i] the loop is left with. *)
Fixpoint main_for (rounds : nat) (i : Z) (w : World) : Z * World :=
  match rounds with
  | O => (i, w)
  | S rounds' =>
      let '(r, w) := doListDev (device_path i) w in
      if r =? 1 then (i, w) else main_for rounds' (i + 1) w
  end.

Definition name_format : string :=
  "HID device name: " ++ String (ascii_of_nat 34) "%s"
  ++ String (ascii_of_nat 34) "\n".

(** [main] up to and with [pthread_create]: either the value it returns
    with, or nothing when the thread runs and [main] goes on. *)
Definition main_startup (w : World) : option Z * World :=
  let '(i, w) := main_for 19 0 w in
  if i =? 19 then
    (Some (-1), fprintf stderr "No Jabra device found\n" [] w)
  else
    let w := fprintf stdout "Using device %s\n" [PStr (device_path i)] w in
    let '(d, w) := open (device_path i) w in
    let w := set_fd d w in
    if (fd w <? 0) && (errno (kernel w) =? EACCES) then
      (Some (-1), fprintf stderr "No permission, try this as root.\n" [] w)
    else
      let '(_, w) := ioctl_INITREPORT (fd w) w in
      let '(_, name, w) := ioctl_GNAME (fd w) w in
      let w := fprintf stdout name_format [PStr name] w in
      (* set initial values *)
      let w := set_mutestate 0 w in
      let w := set_hookstate 0 w in
      let w := set_ringerstate 0 w in
      let w := fprintf stdout "Reading\n" [] w in
      let w := readUsage (fd w) HID_REPORT_TYPE_OUTPUT LEDUsagePage Led_Mute
                 Addr_mutestate w in
      let w := fprintf stdout "mutestate=%i\n" [PInt (mutestate w)] w in
      let w := readUsage (fd w) HID_REPORT_TYPE_OUTPUT LEDUsagePage
                 Led_Off_Hook Addr_hookstate w in
      let w := fprintf stdout "hookstate=%i\n" [PInt (hookstate w)] w in
      let w := readUsage (fd w) HID_REPORT_TYPE_OUTPUT LEDUsagePage Led_Ring
                 Addr_ringerstate w in
      let w := fprintf stdout "ringerstate=%i\n" [PInt (ringerstate w)] w in
      let '(r, w) := pthread_create w in
      if c_true r then
        let w := fprintf stderr "Error creating thread\n" [] w in
        (Some (-1), close (fd w) w)
      else (None, w).

(** [main] after [pthread_create]: [Main_started] is the point after the
    call, [Main_while] the test of [while(run == 1)], [Main_join] the call
    of [pthread_join].  [retval] is the local of that name. *)
Inductive main_pc :=
| Main_started (retval : Z)
| Main_while (retval : Z)
| Main_join (retval : Z)
| Main_returned (status : Z).

(** [pthread_join] gives 0 only for a thread that has returned; until
    then the call has not come back and [main] stays where it is. *)
Definition main_step (pc : main_pc) (event_thread_returned : bool)
  (w : World) : main_pc * World :=
  match pc with
  | Main_started retval =>
      let w := hit_key "?" w in
      (Main_while retval, fcntl_nonblock 0 w)
  | Main_while retval =>
      if run w =? 1 then
        let '(n, c, w) := read_char w in
        let w := if n =? 1 then hit_key c w else w in
        (Main_while retval, usleep (1000 * 100) w)
      else (Main_join retval, w)
  | Main_join retval =>
      let '(r, k) := sys_pthread_join (kernel w) in
      if c_true r || event_thread_returned then
        let w := emit (Pthread_join r) (set_kernel k w) in
        let '(retval, w) :=
          if c_true r
          then (-1, fprintf stderr "Error joining thread\n" [] w)
          else (retval, w) in
        (Main_returned retval, close (fd w) w)
      else (pc, w)
  | Main_returned _ => (pc, w)
  end.

(** ** The two threads together *)

Inductive thread := Main_thread | Event_thread.

Record System := {
  sys_world : World;
  sys_main : main_pc;
  sys_event : event_loop_pc
}.

Definition returned (pc : event_loop_pc) : bool :=
  match pc with EL_returned _ => true | _ => false end.

Definition exited (pc : main_pc) : bool :=
  match pc with Main_returned _ => true | _ => false end.

(** One step of the chosen thread; nothing runs once [main] has
    returned. *)
Definition step (s : System) (t : thread) : System :=
  if exited (sys_main s) then s
  else
    match t with
    | Main_thread =>
        let '(pc, w) :=
          main_step (sys_main s) (returned (sys_event s)) (sys_world s) in
        {| sys_world := w; sys_main := pc; sys_event := sys_event s |}
    | Event_thread =>
        let '(pc, w) := event_loop_step (sys_event s) (sys_world s) in
        {| sys_world := w; sys_main := sys_main s; sys_event := pc |}
    end.

Definition run_schedule (sch : list thread) (s : System) : System :=
  fold_left step sch s.

(** [main] under a schedule: the value it returns, if it has returned by
    the end of the schedule. *)
Definition main (sch : list thread) (w : World) : option Z * World :=
  let retval := 0 in
  match main_startup w with
  | (Some status, w) => (Some status, w)
  | (None, w) =>
      let s := run_schedule sch
                 {| sys_world := w; sys_main := Main_started retval;
                    sys_event := EL_while |} in
      match sys_main s with
      | Main_returned status => (Some status, sys_world s)
      | _ => (None, sys_world s)
      end
  end.

End Program.

Arguments World K : clear implicits.
Arguments System K : clear implicits.

(** ** Reading a trace *)

(** The four requests of the usage protocol. *)
Inductive request := GUSAGE | GFIELDINFO | SUSAGE | SREPORT.

Definition request_of (e : effect) : option request :=
  match e with
  | Ioctl_GUSAGE _ _ _ => Some GUSAGE
  | Ioctl_GFIELDINFO _ _ _ => Some GFIELDINFO
  | Ioctl_SUSAGE _ _ _ => Some SUSAGE
  | Ioctl_SREPORT _ _ _ => Some SREPORT
  | _ => None
  end.

(** The usage-protocol requests of a trace, in the order they were made. *)
Fixpoint requests (tr : list effect) : list request :=
  match tr with
  | [] => []
  | e :: tr' =>
      match request_of e with
      | Some r => r :: requests tr'
      | None => requests tr'
      end
  end.

(** The usage codes looked up with the unknown-report-id wildcard. *)
Fixpoint resolutions (tr : list effect) : list Z :=
  match tr with
  | [] => []
  | Ioctl_GUSAGE _ u _ :: tr' =>
      if ur_report_id u =? HID_REPORT_ID_UNKNOWN
      then ur_usage_code u :: resolutions tr'
      else resolutions tr'
  | _ :: tr' => resolutions tr'
  end.

(** The values handed to the device for staging. *)
Fixpoint staged_values (tr : list effect) : list Z :=
  match tr with
  | [] => []
  | Ioctl_SUSAGE _ u _ :: tr' => ur_value u :: staged_values tr'
  | _ :: tr' => staged_values tr'
  end.

(** The requests of one complete write, in order. *)
Definition transaction : list request := [GUSAGE; GFIELDINFO; SUSAGE; SREPORT].

(** What one attempt to write value [v] to the usage with code [c] looks
    like from the device: the usage is looked up once, the requests are
    the first few of [transaction], and if a value is handed over, it is
    [v]. *)
Definition write_attempt (c v : Z) (l : list effect) : Prop :=
  resolutions l = [c]
  /\ (exists n, requests l = firstn n transaction)
  /\ (staged_values l = [] \/ staged_values l = [v]).

(** The usage codes the program writes to. *)
Definition code_Led_Mute : Z := make_usage_code LEDUsagePage Led_Mute.
Definition code_Led_Off_Hook : Z := make_usage_code LEDUsagePage Led_Off_Hook.
Definition code_Led_Ring : Z := make_usage_code LEDUsagePage Led_Ring.
Definition code_Tel_Ringer : Z := make_usage_code TelephonyUsagePage Tel_Ringer.

(** What a hook change looks like from the device, going from stored
    hook state [h] to [v]: under the lock, the ring LED and the ringer
    are written 0 first if and only if [h] was 0, then the off-hook LED
    is written [v]; what follows makes no request. *)
Definition hook_path_shape (h v : Z) (l : list effect) : Prop :=
  if h =? 0 then
    exists l1 l2 l3 rest,
      l = Mutex_lock :: l1 ++ l2 ++ l3 ++ rest
      /\ write_attempt code_Led_Ring 0 l1
      /\ write_attempt code_Tel_Ringer 0 l2
      /\ write_attempt code_Led_Off_Hook v l3
      /\ requests rest = []
  else
    exists l3 rest,
      l = Mutex_lock :: l3 ++ rest
      /\ write_attempt code_Led_Off_Hook v l3
      /\ requests rest = [].

(** How far one write of [v] gets when it is asked of a kernel in state
    [k], counted in requests of [transaction] and read off the kernel's
    answers: 1 when the lookup of the usage is refused; 2 when the fetch
    of the field is refused, or [v] lies outside the range the field
    gives; 3 when the value is handed over and refused; 4 when the value
    is taken, and the report is then committed. *)
Definition write_progress {K : Type} `{Kernel K} (k : K)
  (d rt page code v : Z) : nat :=
  let u0 := uref_set_key rt HID_REPORT_ID_UNKNOWN
              (make_usage_code page code) (auto_usage_ref k) in
  let '(r1, u1, k1) := HIDIOCGUSAGE k d u0 in
  if r1 <? 0 then 1%nat
  else
    let f0 := finfo_set_key (ur_report_type u1) (ur_report_id u1)
                (ur_field_index u1) (auto_field_info k) in
    let '(r2, f1, k2) := HIDIOCGFIELDINFO k1 d f0 in
    if r2 <? 0 then 2%nat
    else if (v <? logical_minimum f1) || (v >? logical_maximum f1)
    then 2%nat
    else
      let '(r3, _) := HIDIOCSUSAGE k2 d (uref_set_value v u1) in
      if r3 <? 0 then 3%nat else 4%nat.

(** What a write of [v] to the usage with code [c] that gets as far as
    [n] requests looks like from the device: the usage is looked up once,
    the requests are the first [n] of [transaction], and the value is
    handed over, as [v], exactly when the third request is reached. *)
Definition write_made (c v : Z) (n : nat) (l : list effect) : Prop :=
  resolutions l = [c]
  /\ requests l = firstn n transaction
  /\ staged_values l = if (3 <=? n)%nat then [v] else [].

(** ** The call state and what arrives to change it *)

(** The three states as truth values, the way C reads the [int]s. *)
Definition call_state {K : Type} (w : World K) : bool * bool * bool :=
  (c_true (mutestate w), c_true (hookstate w), c_true (ringerstate w)).

(** Something to do under the lock: an event from the device, taken by
    the event thread, or a key, taken by [main]. *)
Inductive arrival :=
| Hardware (ev : hiddev_event)
| User (key : ascii).

Definition process {K : Type} `{Kernel K} (w : World K) (a : arrival)
  : World K :=
  match a with
  | Hardware ev => event_loop_event ev w
  | User key => hit_key key w
  end.

(** Arrivals taken one after the other, each as a whole: this is what
    the lock grants. *)
Definition serialized {K : Type} `{Kernel K} (l : list arrival)
  (w : World K) : World K :=
  fold_left process l w.

Definition is_hook_switch (ev : hiddev_event) : bool :=
  hid ev =? 0x000B0020.

(** Whether an arrival changes the hook state [h] it finds: the toggle
    always does, a hook-switch event does when it reports the other
    state, and nothing else does. *)
Definition hook_effect (h : bool) (a : arrival) : bool :=
  match a with
  | Hardware ev =>
      if is_hook_switch ev then xorb h (c_true (ev_value ev)) else false
  | User key => Ascii.eqb key "o"
  end.

(** An arrival that reports the hook as a C truth value stored as 0 or
    1; keys report nothing. *)
Definition boolean_arrival (a : arrival) : Prop :=
  match a with
  | Hardware ev => ev_value ev = 0 \/ ev_value ev = 1
  | User _ => True
  end.

(** The hook state XORed with the effect of each arrival in turn. *)
Definition xor_effects (h : bool) (l : list arrival) : bool :=
  fold_left (fun h a => xorb h (hook_effect h a)) l h.

(** ** A headset to run the program against

    A small model of a hiddev device, used to run the program on concrete
    inputs.  It keeps a table of usages with their place in the reports,
    their range and their current value; it can be unplugged after a given
    number of requests; events and key presses come from scripts. *)

Module Sim.

Record usage := {
  su_type : Z;
  su_code : Z;
  su_report : Z;
  su_field : Z;
  su_index : Z;
  su_min : Z;
  su_max : Z;
  su_value : Z
}.

Record node := {
  nd_path : string;
  nd_vendor : Z;
  nd_opens : nat    (* opens granted before access is taken away *)
}.

Record t := {
  usages : list usage;
  plugged : nat;                         (* requests still answered *)
  nodes : list node;
  events : list (Z * list hiddev_event); (* what each device read gives *)
  keys : list (option ascii);            (* what each poll of stdin gives *)
  create_ret : Z;
  join_ret : Z;
  last_errno : Z
}.

Definition with_usages (us : list usage) (k : t) : t :=
  {| usages := us; plugged := plugged k; nodes := nodes k;
     events := events k; keys := keys k; create_ret := create_ret k;
     join_ret := join_ret k; last_errno := last_errno k |}.

Definition with_plugged (n : nat) (k : t) : t :=
  {| usages := usages k; plugged := n; nodes := nodes k;
     events := events k; keys := keys k; create_ret := create_ret k;
     join_ret := join_ret k; last_errno := last_errno k |}.

Definition with_nodes (ns : list node) (k : t) : t :=
  {| usages := usages k; plugged := plugged k; nodes := ns;
     events := events k; keys := keys k; create_ret := create_ret k;
     join_ret := join_ret k; last_errno := last_errno k |}.

Definition with_events (es : list (Z * list hiddev_event)) (k : t) : t :=
  {| usages := usages k; plugged := plugged k; nodes := nodes k;
     events := es; keys := keys k; create_ret := create_ret k;
     join_ret := join_ret k; last_errno := last_errno k |}.

Definition with_keys (ks : list (option ascii)) (k : t) : t :=
  {| usages := usages k; plugged := plugged k; nodes := nodes k;
     events := events k; keys := ks; create_ret := create_ret k;
     join_ret := join_ret k; last_errno := last_errno k |}.

Definition with_errno (e : Z) (k : t) : t :=
  {| usages := usages k; plugged := plugged k; nodes := nodes k;
     events := events k; keys := keys k; create_ret := create_ret k;
     join_ret := join_ret k; last_errno := e |}.

Definition with_create_ret (r : Z) (k : t) : t :=
  {| usages := usages k; plugged := plugged k; nodes := nodes k;
     events := events k; keys := keys k; create_ret := r;
     join_ret := join_ret k; last_errno := last_errno k |}.

Definition with_join_ret (r : Z) (k : t) : t :=
  {| usages := usages k; plugged := plugged k; nodes := nodes k;
     events := events k; keys := keys k; create_ret := create_ret k;
     join_ret := r; last_errno := last_errno k |}.

Definition ENODEV : Z := 19.
Definition EINVAL : Z := 22.
Definition EAGAIN : Z := 11.

(** One request used up; [None] once the device is gone. *)
Definition answer (k : t) : option t :=
  match plugged k with
  | O => None
  | S n => Some (with_plugged n k)
  end.

Definition by_code (rt code : Z) (u : usage) : bool :=
  (su_type u =? rt) && (su_code u =? code).

Definition by_place (rt rid fld idx : Z) (u : usage) : bool :=
  (su_type u =? rt) && (su_report u =? rid) && (su_field u =? fld)
  && (su_index u =? idx).

Definition by_field (rt rid fld : Z) (u : usage) : bool :=
  (su_type u =? rt) && (su_report u =? rid) && (su_field u =? fld).

Definition gusage (k : t) (d : Z) (u : hiddev_usage_ref)
  : Z * hiddev_usage_ref * t :=
  match answer k with
  | None => (-1, u, with_errno ENODEV k)
  | Some k =>
      let hit :=
        if ur_report_id u =? HID_REPORT_ID_UNKNOWN
        then find (by_code (ur_report_type u) (ur_usage_code u)) (usages k)
        else find (by_place (ur_report_type u) (ur_report_id u)
                     (ur_field_index u) (ur_usage_index u)) (usages k) in
      match hit with
      | Some s =>
          (0, {| ur_report_type := ur_report_type u;
                 ur_report_id := su_report s; ur_field_index := su_field s;
                 ur_usage_index := su_index s;
                 ur_usage_code := ur_usage_code u;
                 ur_value := su_value s |}, k)
      | None => (-1, u, with_errno EINVAL k)
      end
  end.

Definition gfieldinfo (k : t) (d : Z) (f : hiddev_field_info)
  : Z * hiddev_field_info * t :=
  match answer k with
  | None => (-1, f, with_errno ENODEV k)
  | Some k =>
      match find (by_field (fi_report_type f) (fi_report_id f)
                    (fi_field_index f)) (usages k) with
      | Some s =>
          (0, {| fi_report_type := fi_report_type f;
                 fi_report_id := fi_report_id f;
                 fi_field_index := fi_field_index f;
                 maxusage := 1; flags := 2; physical := 0; logical := 0;
                 application := 0;
                 logical_minimum := su_min s; logical_maximum := su_max s;
                 physical_minimum := 0; physical_maximum := 0;
                 unit_exponent := 0; unit := 0 |}, k)
      | None => (-1, f, with_errno EINVAL k)
      end
  end.

Definition put (u : hiddev_usage_ref) (s : usage) : usage :=
  if by_place (ur_report_type u) (ur_report_id u) (ur_field_index u)
       (ur_usage_index u) s
  then {| su_type := su_type s; su_code := su_code s;
          su_report := su_report s; su_field := su_field s;
          su_index := su_index s; su_min := su_min s; su_max := su_max s;
          su_value := ur_value u |}
  else s.

Definition susage (k : t) (d : Z) (u : hiddev_usage_ref) : Z * t :=
  match answer k with
  | None => (-1, with_errno ENODEV k)
  | Some k =>
      if existsb (by_place (ur_report_type u) (ur_report_id u)
                    (ur_field_index u) (ur_usage_index u)) (usages k)
      then (0, with_usages (map (put u) (usages k)) k)
      else (-1, with_errno EINVAL k)
  end.

Definition sreport (k : t) (d : Z) (r : hiddev_report_info) : Z * t :=
  match answer k with
  | None => (-1, with_errno ENODEV k)
  | Some k => (0, k)
  end.

Definition spend (p : string) (n : node) : node :=
  if String.eqb (nd_path n) p
  then {| nd_path := nd_path n; nd_vendor := nd_vendor n;
          nd_opens := pred (nd_opens n) |}
  else n.

Definition open_node (k : t) (p : string) : Z * t :=
  match find (fun n => String.eqb (nd_path n) p) (nodes k) with
  | None => (-1, with_errno ENOENT k)
  | Some n =>
      match nd_opens n with
      | O => (-1, with_errno EACCES k)
      | S _ => (3, with_nodes (map (spend p) (nodes k)) k)
      end
  end.

Definition devinfo (k : t) (d : Z) : Z * hiddev_devinfo * t :=
  let v := match nodes k with n :: _ => nd_vendor n | [] => 0 end in
  (0, {| bustype := 3; busnum := 1; devnum := 1; ifnum := 0; vendor := v;
         product := 0; version := 0; num_applications := 1 |}, k).

Definition poll (k : t) (nfds : Z) : Z * t :=
  match events k with
  | [] => (0, k)
  | _ :: _ => (1, k)
  end.

Definition no_event : hiddev_event := {| hid := 0; ev_value := 0 |}.

Definition read_device (k : t) (d count : Z)
  : Z * (nat -> hiddev_event) * t :=
  match events k with
  | [] => (-1, fun _ => no_event, with_errno EAGAIN k)
  | (n, evs) :: rest => (n, fun i => nth i evs no_event, with_events rest k)
  end.

Definition read_key (k : t) : Z * ascii * t :=
  match keys k with
  | [] => (-1, "000"%char, with_errno EAGAIN k)
  | None :: rest => (-1, "000"%char, with_errno EAGAIN (with_keys rest k))
  | Some c :: rest => (1, c, with_keys rest k)
  end.

#[global] Instance sim_kernel : Kernel t := {|
  HIDIOCGUSAGE := gusage;
  HIDIOCGFIELDINFO := gfieldinfo;
  HIDIOCSUSAGE := susage;
  HIDIOCSREPORT := sreport;
  HIDIOCGDEVINFO := devinfo;
  HIDIOCGNAME := fun k d => (0, "Jabra"%string, k);
  HIDIOCGVERSION := fun k d => (0, k);
  HIDIOCINITREPORT := fun k d => (0, k);
  sys_open := open_node;
  sys_close := fun k d => k;
  sys_select := poll;
  sys_read_events := read_device;
  sys_read_char := read_key;
  sys_pthread_create := fun k => (create_ret k, k);
  sys_pthread_join := fun k => (join_ret k, k);
  errno := last_errno;
  auto_usage_ref := fun _ =>
    {| ur_report_type := 0; ur_report_id := 0; ur_field_index := 0;
       ur_usage_index := 0; ur_usage_code := 0; ur_value := 0 |};
  auto_field_info := fun _ =>
    {| fi_report_type := 0; fi_report_id := 0; fi_field_index := 0;
       maxusage := 0; flags := 0; physical := 0; logical := 0;
       application := 0; logical_minimum := 0; logical_maximum := 0;
       physical_minimum := 0; physical_maximum := 0; unit_exponent := 0;
       unit := 0 |};
  auto_report_info := fun _ =>
    {| ri_report_type := 0; ri_report_id := 0; ri_num_fields := 0 |}
|}.

(** The output usages of a headset: three LEDs in report 2 and the ringer
    in report 3, each one bit wide. *)
Definition led (code idx : Z) : usage :=
  {| su_type := HID_REPORT_TYPE_OUTPUT;
     su_code := make_usage_code LEDUsagePage code;
     su_report := 2; su_field := idx; su_index := 0;
     su_min := 0; su_max := 1; su_value := 0 |}.

Definition ringer : usage :=
  {| su_type := HID_REPORT_TYPE_OUTPUT;
     su_code := make_usage_code TelephonyUsagePage Tel_Ringer;
     su_report := 3; su_field := 0; su_index := 0;
     su_min := 0; su_max := 1; su_value := 0 |}.

Definition headset : t :=
  {| usages := [led Led_Mute 0; led Led_Off_Hook 1; led Led_Ring 2; ringer];
     plugged := 1000;
     nodes := [{| nd_path := "/dev/usb/hiddev0"; nd_vendor := JABRA_VID;
                  nd_opens := 1000 |}];
     events := []; keys := [];
     create_ret := 0; join_ret := 0; last_errno := 0 |}.

(** The program's variables as they are when the process starts. *)
Definition boot (k : t) : World t :=
  {| kernel := k; trace := []; fd := 0; mutestate := 0; hookstate := 0;
     ringerstate := 0; run := 1; other_ints := fun _ => 0 |}.

End Sim.


(** ** Comparing worlds *)

(** The program's own variables agree in two worlds. *)
Definition same_vars {K : Type} (w w' : World K) : Prop :=
  fd w' = fd w /\ mutestate w' = mutestate w /\ hookstate w' = hookstate w
  /\ ringerstate w' = ringerstate w /\ run w' = run w
  /\ other_ints w' = other_ints w.

(** [w'] continues the trace of [w] with [l]. *)
Definition extends {K : Type} (w : World K) (l : list effect)
  (w' : World K) : Prop :=
  trace w' = (trace w ++ l)%list.

(** Once the event thread has been created, [retval] is 0 until
    [pthread_join] has been called, and [main] then returns 0 unless that
    call failed; what the thread returned plays no part. *)
Definition main_retval_ok {K : Type} (pc : main_pc) (w : World K) : Prop :=
  match pc with
  | Main_started r | Main_while r | Main_join r => r = 0
  | Main_returned st =>
      (st = 0 /\ In (Pthread_join 0) (trace w))
      \/ (st = -1 /\ exists r, r <> 0 /\ In (Pthread_join r) (trace w))
  end.

(** ** The program on the headset *)

(** The variables once [main] has opened the device. *)
Definition opened (k : Sim.t) : World Sim.t := set_fd 3 (Sim.boot k).

Definition hook_switch (v : Z) : hiddev_event :=
  {| hid := make_usage_code TelephonyUsagePage Tel_Hook_Switch;
     ev_value := v |}.

Definition phone_mute (v : Z) : hiddev_event :=
  {| hid := make_usage_code TelephonyUsagePage Tel_Phone_Mute;
     ev_value := v |}.

(** The values the device holds for the four output usages, in the order
    mute LED, off-hook LED, ring LED, ringer. *)
Definition device_values (w : World Sim.t) : list Z :=
  map Sim.su_value (Sim.usages (kernel w)).

(** Both threads at their loop heads, and the next read of the device
    gives four bytes. *)
Definition short_read : System Sim.t :=
  {| sys_world := opened (Sim.with_events [(4, [])] Sim.headset);
     sys_main := Main_while 0;
     sys_event := EL_while |}.

(** The process at its start, with a device whose first read gives
    [n]. *)
Definition bad_read (n : Z) : World Sim.t :=
  Sim.boot (Sim.with_events [(n, [])] Sim.headset).

(** The two threads once [main] has gone through its start-up in [w]. *)
Definition started (w : World Sim.t) : System Sim.t :=
  {| sys_world := snd (main_startup w); sys_main := Main_started 0;
     sys_event := EL_while |}.

(** The key [q] is waiting on stdin. *)
Definition quit_pressed (k : Sim.t) : Sim.t := Sim.with_keys [Some "q"%char] k.

(** A schedule that lets [main] read a key and leave its loop, the event
    thread see [run] and return, and [main] join it. *)
Definition main_first : list thread :=
  [Main_thread; Main_thread; Main_thread; Event_thread; Main_thread].

(** A schedule that lets the event thread go first and [main] finish. *)
Definition event_first : list thread :=
  [Event_thread; Main_thread; Main_thread; Main_thread].

(** * The rest of the program *)

(** ** More to read from a trace *)

(** The paths opened, and the descriptors closed, in order. *)
Fixpoint opened_paths (tr : list effect) : list string :=
  match tr with
  | [] => []
  | Open path _ :: tr' => path :: opened_paths tr'
  | _ :: tr' => opened_paths tr'
  end.

Fixpoint closed_fds (tr : list effect) : list Z :=
  match tr with
  | [] => []
  | Close d :: tr' => d :: closed_fds tr'
  | _ :: tr' => closed_fds tr'
  end.

Definition is_lock_mark (e : effect) : bool :=
  match e with
  | Mutex_lock | Mutex_unlock => true
  | _ => false
  end.

(** The takings and givings back of the lock. *)
Definition lock_marks (tr : list effect) : list effect :=
  filter is_lock_mark tr.

(** What is put on the trace by work done under the lock: the lock is
    taken first, given back last and not touched in between. *)
Definition under_lock (l : list effect) : Prop :=
  exists mid, l = Mutex_lock :: mid ++ [Mutex_unlock] /\ lock_marks mid = [].

(** The requests of a complete read, in order. *)
Definition read_transaction : list request :=
  [GUSAGE; GFIELDINFO; GUSAGE; SREPORT].

Definition is_phone_mute (ev : hiddev_event) : bool :=
  hid ev =? 0x000B002F.

(** The program's variables, apart from the kernel and the trace. *)
Definition vars_of {K : Type} (w : World K)
  : Z * Z * Z * Z * Z * (nat -> Z) :=
  (fd w, mutestate w, hookstate w, ringerstate w, run w, other_ints w).

(** [w'] continues the trace of [w] with effects that all pass [ok]. *)
Definition emits {K : Type} (ok : effect -> bool) (w w' : World K) : Prop :=
  exists l, extends w l w' /\ forallb ok l = true.

(** What the usage protocol and the diagnostics put on a trace. *)
Definition is_usage_traffic (e : effect) : bool :=
  match e with
  | Ioctl_GUSAGE _ _ _ | Ioctl_GFIELDINFO _ _ _ | Ioctl_SUSAGE _ _ _
  | Ioctl_SREPORT _ _ _ | Perror _ _ | Fprintf _ _ _ => true
  | _ => false
  end.

(** Printing only. *)
Definition is_print (e : effect) : bool :=
  match e with
  | Fprintf _ _ _ => true
  | _ => false
  end.

(** [i], [i + 1], ..., [n] of them. *)
Definition indices (i : Z) (n : nat) : list Z :=
  map (fun t => i + Z.of_nat t) (seq 0 n).

(** [event_loop], [n] scheduling steps on from [pc]. *)
Fixpoint event_loop_steps {K : Type} `{Kernel K} (n : nat)
  (pc : event_loop_pc) (w : World K) : event_loop_pc * World K :=
  match n with
  | O => (pc, w)
  | S n' =>
      let '(pc', w') := event_loop_step pc w in
      event_loop_steps n' pc' w'
  end.

(** The events of a batch, slots [0] to [n - 1] of the buffer. *)
Definition batch (ev : nat -> hiddev_event) (n : nat) : list arrival :=
  map (fun j => Hardware (ev j)) (seq 0 n).

(** [main] is at or past its call of [pthread_join]. *)
Definition joining (pc : main_pc) : bool :=
  match pc with
  | Main_join _ | Main_returned _ => true
  | _ => false
  end.


(** What an arrival makes of the program's variables, the device left
    out. *)
Definition vars_step (v : Z * Z * Z * Z * Z * (nat -> Z)) (a : arrival)
  : Z * Z * Z * Z * Z * (nat -> Z) :=
  let '(d, m, h, r, go, o) := v in
  match a with
  | Hardware ev =>
      (d, (if is_phone_mute ev && (ev_value ev =? 1) then c_not m else m),
       (if is_hook_switch ev then ev_value ev else h), r, go, o)
  | User key =>
      (d, (if Ascii.eqb key "m" then c_not m else m),
       (if Ascii.eqb key "o" then c_not h else h),
       (if Ascii.eqb key "r" then c_not r else r),
       (if Ascii.eqb key "q" then 0 else go), o)
  end.

Definition no_lock_mark (e : effect) : bool := negb (is_lock_mark e).

Definition lock_or_print (e : effect) : bool :=
  is_lock_mark e || is_print e.

(** ** A node that goes away

    The headset behind a device node that can be opened a given number
    of times and is gone after that, as when the headset is pulled out
    between the scan and the open of [main]. *)

Module Vanishing.

Definition t : Type := nat * Sim.t.

Definition on_headset {A : Type} (call : Sim.t -> A * Sim.t) (s : t)
  : A * t :=
  let '(a, k) := call (snd s) in (a, (fst s, k)).

Definition open_node (s : t) (path : string) : Z * t :=
  match fst s with
  | O => (-1, (O, Sim.with_errno ENOENT (snd s)))
  | S n => let '(d, k) := Sim.open_node (snd s) path in (d, (n, k))
  end.

#[global] Instance vanishing_kernel : Kernel t := {|
  HIDIOCGUSAGE := fun s d u => on_headset (fun k => Sim.gusage k d u) s;
  HIDIOCGFIELDINFO := fun s d f =>
    on_headset (fun k => Sim.gfieldinfo k d f) s;
  HIDIOCSUSAGE := fun s d u => on_headset (fun k => Sim.susage k d u) s;
  HIDIOCSREPORT := fun s d r => on_headset (fun k => Sim.sreport k d r) s;
  HIDIOCGDEVINFO := fun s d => on_headset (fun k => Sim.devinfo k d) s;
  HIDIOCGNAME := fun s d => (0, "Jabra"%string, s);
  HIDIOCGVERSION := fun s d => (0, s);
  HIDIOCINITREPORT := fun s d =>
    (if d <? 0 then -1 else 0, s);
  sys_open := open_node;
  sys_close := fun s d => s;
  sys_select := fun s nfds => on_headset (fun k => Sim.poll k nfds) s;
  sys_read_events := fun s d count =>
    on_headset (fun k => Sim.read_device k d count) s;
  sys_read_char := fun s => on_headset Sim.read_key s;
  sys_pthread_create := fun s => (Sim.create_ret (snd s), s);
  sys_pthread_join := fun s => (Sim.join_ret (snd s), s);
  errno := fun s => Sim.last_errno (snd s);
  auto_usage_ref := fun s => auto_usage_ref (snd s);
  auto_field_info := fun s => auto_field_info (snd s);
  auto_report_info := fun s => auto_report_info (snd s)
|}.

(** The process at its start, the node good for [n] opens. *)
Definition boot (n : nat) : World t :=
  {| kernel := (n, Sim.headset); trace := []; fd := 0; mutestate := 0;
     hookstate := 0; ringerstate := 0; run := 1; other_ints := fun _ => 0 |}.

End Vanishing.

(** ** More runs on the headset *)

Definition volume_up (v : Z) : hiddev_event :=
  {| hid := make_usage_code ConsumerUsagePage Con_Volume_Incr;
     ev_value := v |}.

(** The next read of the device gives twelve bytes: a hook-switch event
    and half of another. *)
Definition one_and_a_half : World Sim.t :=
  opened (Sim.with_events [(12, [hook_switch 1; phone_mute 1])] Sim.headset).


(** * Properties *)

Local Open Scope list_scope.

Section Generic.

Context {K : Type} `{Kernel K}.

Lemma requests_app l1 l2 : requests (l1 ++ l2) = requests l1 ++ requests l2.
Proof.
  induction l1 as [|e l1 IH]; simpl; [reflexivity|].
  destruct (request_of e); simpl; now rewrite IH.
Qed.

Lemma resolutions_app l1 l2 :
  resolutions (l1 ++ l2) = resolutions l1 ++ resolutions l2.
Proof.
  induction l1 as [|e l1 IH]; simpl; [reflexivity|].
  destruct e; simpl; try assumption.
  destruct (_ =? _); simpl; now rewrite IH.
Qed.

(** Splitting the answers of the kernel into their parts. *)
Ltac answers :=
  repeat match goal with
  | |- context [HIDIOCGUSAGE ?k ?d ?u] =>
      let E := fresh "Eg" in
      destruct (HIDIOCGUSAGE k d u) as [[? ?] ?] eqn:E
  | |- context [HIDIOCGFIELDINFO ?k ?d ?f] =>
      let E := fresh "Ef" in
      destruct (HIDIOCGFIELDINFO k d f) as [[? ?] ?] eqn:E
  | |- context [HIDIOCSUSAGE ?k ?d ?u] =>
      let E := fresh "Es" in
      destruct (HIDIOCSUSAGE k d u) as [? ?] eqn:E
  | |- context [HIDIOCSREPORT ?k ?d ?r] =>
      let E := fresh "Er" in
      destruct (HIDIOCSREPORT k d r) as [? ?] eqn:E
  | |- context [if ?b then _ else _] => destruct b eqn:?
  | _ => progress cbn
  end.

Lemma writeUsage_same_vars d rt page code v (w : World K) :
  same_vars w (writeUsage d rt page code v w).
Proof.
  unfold writeUsage, ioctl_GUSAGE, ioctl_GFIELDINFO, ioctl_SUSAGE,
    ioctl_SREPORT, perror, fprintf.
  answers; repeat split.
Qed.

(** What a call of [writeUsage] puts on the trace, whatever the kernel
    answers. *)
Lemma writeUsage_attempt d rt page code v (w : World K) :
  exists l, extends w l (writeUsage d rt page code v w)
    /\ write_attempt (make_usage_code page code) v l.
Proof.
  unfold writeUsage, ioctl_GUSAGE, ioctl_GFIELDINFO, ioctl_SUSAGE,
    ioctl_SREPORT, perror, fprintf, extends, write_attempt.
  answers;
    (eexists; split;
     [rewrite <- ?app_assoc; cbn [app]; reflexivity
     |cbn; rewrite ?Z.eqb_refl; split; [reflexivity|split; [|auto]]]);
    first [now exists 1%nat | now exists 2%nat
          | now exists 3%nat | now exists 4%nat].
Qed.

Lemma staged_values_app l1 l2 :
  staged_values (l1 ++ l2) = staged_values l1 ++ staged_values l2.
Proof.
  induction l1 as [|e l1 IH]; simpl; [reflexivity|].
  destruct e; simpl; try assumption. now rewrite IH.
Qed.

(** Closing a case of [writeUsage]: the trace it leaves and what can be
    read from it. *)
Ltac sent :=
  eexists; split;
  [cbn [trace emit set_kernel]; rewrite <- ?app_assoc; cbn [app]; reflexivity
  |cbn; rewrite ?Z.eqb_refl; now repeat split].

(** What a call of [writeUsage] sends, by the answers of the kernel: the
    requests stop at the first one that is refused, or at the range
    check, and the value reaches the device only past both lookups and
    the range check. *)
Lemma writeUsage_progress d rt page code v (w : World K) :
  exists l, extends w l (writeUsage d rt page code v w)
    /\ write_made (make_usage_code page code) v
         (write_progress (kernel w) d rt page code v) l.
Proof.
  unfold writeUsage, write_progress, ioctl_GUSAGE, ioctl_GFIELDINFO,
    ioctl_SUSAGE, ioctl_SREPORT, perror, fprintf, extends, write_made.
  cbv zeta.
  destruct (HIDIOCGUSAGE _ _ _) as [[r1 u1] k1].
  cbn [kernel emit set_kernel].
  destruct (r1 <? 0); [sent|].
  destruct (HIDIOCGFIELDINFO _ _ _) as [[r2 f1] k2].
  cbn [kernel emit set_kernel].
  destruct (r2 <? 0); [sent|].
  destruct ((v <? logical_minimum f1) || (v >? logical_maximum f1)); [sent|].
  destruct (HIDIOCSUSAGE _ _ _) as [r3 k3].
  cbn [kernel emit set_kernel].
  destruct (r3 <? 0); [sent|].
  destruct (HIDIOCSREPORT _ _ _) as [r4 k4].
  destruct (r4 <? 0); sent.
Qed.

(** The value is handed over exactly when both lookups are answered
    without error and the value lies within the bounds of the field; the
    write gets through all four requests exactly when the handing over is
    answered without error as well. *)
Lemma write_progress_complete (k : K) d rt page code v r1 u1 k1 r2 f1 k2
  r3 k3 :
  let u0 := uref_set_key rt HID_REPORT_ID_UNKNOWN
              (make_usage_code page code) (auto_usage_ref k) in
  let f0 := finfo_set_key (ur_report_type u1) (ur_report_id u1)
              (ur_field_index u1) (auto_field_info k) in
  HIDIOCGUSAGE k d u0 = (r1, u1, k1) ->
  HIDIOCGFIELDINFO k1 d f0 = (r2, f1, k2) ->
  HIDIOCSUSAGE k2 d (uref_set_value v u1) = (r3, k3) ->
  ((3 <= write_progress k d rt page code v)%nat
   <-> 0 <= r1 /\ 0 <= r2
       /\ logical_minimum f1 <= v <= logical_maximum f1)
  /\ (write_progress k d rt page code v = 4%nat
      <-> 0 <= r1 /\ 0 <= r2
          /\ logical_minimum f1 <= v <= logical_maximum f1 /\ 0 <= r3).
Proof.
  intros u0 f0 E1 E2 E3. unfold write_progress. fold u0. rewrite E1.
  destruct (Z.ltb_spec r1 0); [split; split; (discriminate || lia)|].
  fold f0. rewrite E2.
  destruct (Z.ltb_spec r2 0); [split; split; (discriminate || lia)|].
  destruct (Z.ltb_spec v (logical_minimum f1)); cbn [orb];
    [split; split; (discriminate || lia)|].
  destruct (Z.gtb_spec v (logical_maximum f1));
    [split; split; (discriminate || lia)|].
  rewrite E3.
  destruct (Z.ltb_spec r3 0); split; split;
    first [discriminate | reflexivity | lia].
Qed.

(** *** readUsage and writeUsage leave the call state alone *)

(** C10: [writeUsage] changes none of [mutestate], [hookstate],
    [ringerstate] and [run], nor any other [int] object, whatever the
    ioctls answer.  [readUsage] stores through its out-parameter only:
    every [int] object other than the one pointed to keeps its value (so
    a call state variable changes only when the caller passes its
    address, as [main] does), and the object pointed to gets the value
    read if the lookup, the field fetch and the value read all
    succeeded, and keeps its own otherwise. *)
Theorem writeUsage_readUsage_frame d rt page code v (p : int_ptr)
  (w : World K) :
  (mutestate (writeUsage d rt page code v w) = mutestate w
   /\ hookstate (writeUsage d rt page code v w) = hookstate w
   /\ ringerstate (writeUsage d rt page code v w) = ringerstate w
   /\ run (writeUsage d rt page code v w) = run w
   /\ forall q, load q (writeUsage d rt page code v w) = load q w)
  /\ (forall q, q <> p ->
        load q (readUsage d rt page code p w) = load q w)
  /\ fd (readUsage d rt page code p w) = fd w
  /\ (let u0 := uref_set_key rt HID_REPORT_ID_UNKNOWN
                  (make_usage_code page code) (auto_usage_ref (kernel w)) in
      let '(r1, u1, k1) := HIDIOCGUSAGE (kernel w) d u0 in
      let f0 := finfo_set_key (ur_report_type u1) (ur_report_id u1)
                  (ur_field_index u1) (auto_field_info (kernel w)) in
      let '(r2, _, k2) := HIDIOCGFIELDINFO k1 d f0 in
      let '(r3, u2, _) := HIDIOCGUSAGE k2 d u1 in
      load p (readUsage d rt page code p w) =
        if (0 <=? r1) && (0 <=? r2) && (0 <=? r3)
        then ur_value u2 else load p w).
Proof.
  split; [|split; [|split]].
  - destruct (writeUsage_same_vars d rt page code v w)
      as (_ & Hm & Hh & Hr & Hn & Ho).
    repeat split; auto.
    intros q. destruct q; cbn [load]; auto. now rewrite Ho.
  - intros q Hq.
    unfold readUsage, ioctl_GUSAGE, ioctl_GFIELDINFO, ioctl_SREPORT,
      perror, fprintf.
    answers; try reflexivity;
      destruct p, q; cbn; try reflexivity; try congruence;
      destruct (Nat.eqb_spec n0 n); congruence.
  - unfold readUsage, ioctl_GUSAGE, ioctl_GFIELDINFO, ioctl_SREPORT,
      perror, fprintf.
    answers; try reflexivity; destruct p; reflexivity.
  - cbv zeta.
    unfold readUsage, ioctl_GUSAGE, ioctl_GFIELDINFO, ioctl_SREPORT,
      perror, fprintf.
    cbn.
    destruct (HIDIOCGUSAGE _ _ _) as [[r1 u1] k1]; cbn.
    destruct (HIDIOCGFIELDINFO _ _ _) as [[r2 f1] k2]; cbn.
    destruct (HIDIOCGUSAGE k2 d u1) as [[r3 u2] k3]; cbn.
    destruct (Z.ltb_spec r1 0), (Z.leb_spec 0 r1); try lia;
      [destruct p; reflexivity|].
    destruct (Z.ltb_spec r2 0), (Z.leb_spec 0 r2); try lia;
      [destruct p; reflexivity|].
    destruct (Z.ltb_spec r3 0), (Z.leb_spec 0 r3); try lia;
      [destruct p; reflexivity|].
    cbn.
    destruct (HIDIOCSREPORT _ _ _) as [r4 k4]; cbn.
    destruct (r4 <? 0); destruct p; cbn; try reflexivity;
      now rewrite Nat.eqb_refl.
Qed.

(** *** writeUsage: the range check *)


(** *** writeUsage: the transaction *)

(** C2, as far as it holds: with the usage and its field found and the
    value within the bounds, [writeUsage] hands the value over with
    HIDIOCSUSAGE.  If that request is accepted the report is committed
    with HIDIOCSREPORT, so the four requests are made once each, in
    order, starting from a fresh lookup whatever came before; if it is
    refused, the call ends there and nothing is committed. *)
Theorem writeUsage_in_range d rt page code v (w : World K)
  r1 u1 k1 r2 f1 k2 r3 k3 r4 k4 :
  let u0 := uref_set_key rt HID_REPORT_ID_UNKNOWN
              (make_usage_code page code) (auto_usage_ref (kernel w)) in
  let f0 := finfo_set_key (ur_report_type u1) (ur_report_id u1)
              (ur_field_index u1) (auto_field_info (kernel w)) in
  let u2 := uref_set_value v u1 in
  let i0 := rinfo_set_key (ur_report_type u1) (ur_report_id u1)
              (auto_report_info (kernel w)) in
  HIDIOCGUSAGE (kernel w) d u0 = (r1, u1, k1) -> 0 <= r1 ->
  HIDIOCGFIELDINFO k1 d f0 = (r2, f1, k2) -> 0 <= r2 ->
  logical_minimum f1 <= v <= logical_maximum f1 ->
  HIDIOCSUSAGE k2 d u2 = (r3, k3) ->
  HIDIOCSREPORT k3 d i0 = (r4, k4) ->
  let w' := writeUsage d rt page code v w in
  resolutions (trace w')
    = resolutions (trace w) ++ [make_usage_code page code]
  /\ (0 <= r3 ->
     requests (trace w') =
       requests (trace w) ++ [GUSAGE; GFIELDINFO; SUSAGE; SREPORT]
     /\ trace w' = trace w ++
          [Ioctl_GUSAGE d u0 r1; Ioctl_GFIELDINFO d f0 r2;
           Ioctl_SUSAGE d u2 r3; Ioctl_SREPORT d i0 r4]
          ++ (if r4 <? 0 then [Perror "HIDIOCSREPORT" (errno k4)] else [])
     /\ kernel w' = k4)
  /\ (r3 < 0 ->
       requests (trace w') =
         requests (trace w) ++ [GUSAGE; GFIELDINFO; SUSAGE]
       /\ trace w' = trace w ++
            [Ioctl_GUSAGE d u0 r1; Ioctl_GFIELDINFO d f0 r2;
             Ioctl_SUSAGE d u2 r3; Perror "HIDIOCSUSAGE" (errno k3)]
       /\ kernel w' = k3).
Proof.
  intros u0 f0 u2 i0 E1 Hr1 E2 Hr2 Hv E3 E4 w'.
  assert (Hw : w' =
    if r3 <? 0 then
      perror "HIDIOCSUSAGE"
        (emit (Ioctl_SUSAGE d u2 r3) (set_kernel k3
          (emit (Ioctl_GFIELDINFO d f0 r2) (set_kernel k2
            (emit (Ioctl_GUSAGE d u0 r1) (set_kernel k1 w))))))
    else
      let w4 := emit (Ioctl_SREPORT d i0 r4) (set_kernel k4
        (emit (Ioctl_SUSAGE d u2 r3) (set_kernel k3
          (emit (Ioctl_GFIELDINFO d f0 r2) (set_kernel k2
            (emit (Ioctl_GUSAGE d u0 r1) (set_kernel k1 w))))))) in
      if r4 <? 0 then perror "HIDIOCSREPORT" w4 else w4).
  { subst w'.
    unfold writeUsage, ioctl_GUSAGE, ioctl_GFIELDINFO, ioctl_SUSAGE,
      ioctl_SREPORT.
    fold u0. rewrite E1. cbn.
    destruct (Z.ltb_spec r1 0); [lia|].
    fold f0. rewrite E2. cbn.
    destruct (Z.ltb_spec r2 0); [lia|].
    destruct (Z.ltb_spec v (logical_minimum f1)); [lia|].
    destruct (Z.gtb_spec v (logical_maximum f1)); [lia|].
    cbn. fold u2. rewrite E3. cbn.
    destruct (r3 <? 0); [reflexivity|].
    fold i0. rewrite E4. reflexivity. }
  split.
  { destruct (writeUsage_attempt d rt page code v w) as (l & E & R & _).
    fold w' in E. unfold extends in E. now rewrite E, resolutions_app, R. }
  rewrite Hw. split; intros Hr3.
  - destruct (Z.ltb_spec r3 0); [lia|].
    cbv zeta. destruct (r4 <? 0); cbn;
      rewrite <- ?app_assoc; cbn [app];
      (split; [rewrite requests_app; reflexivity|split; reflexivity]).
  - destruct (Z.ltb_spec r3 0); [|lia].
    cbn. rewrite <- ?app_assoc; cbn [app].
    split; [rewrite requests_app; reflexivity|split; reflexivity].
Qed.

(** *** Events and keys *)

Lemma writeUsage_fd d rt page code v (w : World K) :
  fd (writeUsage d rt page code v w) = fd w.
Proof. apply (writeUsage_same_vars d rt page code v w). Qed.

Lemma writeUsage_mutestate d rt page code v (w : World K) :
  mutestate (writeUsage d rt page code v w) = mutestate w.
Proof. apply (writeUsage_same_vars d rt page code v w). Qed.

Lemma writeUsage_hookstate d rt page code v (w : World K) :
  hookstate (writeUsage d rt page code v w) = hookstate w.
Proof. apply (writeUsage_same_vars d rt page code v w). Qed.

Lemma writeUsage_ringerstate d rt page code v (w : World K) :
  ringerstate (writeUsage d rt page code v w) = ringerstate w.
Proof. apply (writeUsage_same_vars d rt page code v w). Qed.

Lemma writeUsage_run d rt page code v (w : World K) :
  run (writeUsage d rt page code v w) = run w.
Proof. apply (writeUsage_same_vars d rt page code v w). Qed.

(** Reading the program's variables through assignments and calls. *)
Ltac vars :=
  repeat first
    [ progress cbn [fd mutestate hookstate ringerstate run kernel trace
                    other_ints emit set_kernel set_fd set_mutestate
                    set_hookstate set_ringerstate set_run fprintf perror
                    pthread_mutex_lock pthread_mutex_unlock fflush usleep
                    fcntl_nonblock]
    | rewrite writeUsage_fd | rewrite writeUsage_mutestate
    | rewrite writeUsage_hookstate | rewrite writeUsage_ringerstate
    | rewrite writeUsage_run ].

Lemma c_not_is_1 x : (c_not x =? 1) = (x =? 0).
Proof. unfold c_not. now destruct (x =? 0). Qed.

(** The hook-switch event whose value differs from [hookstate]. *)
Lemma hook_event_eq ev (w : World K) :
  hid ev = make_usage_code TelephonyUsagePage Tel_Hook_Switch ->
  hookstate w <> ev_value ev ->
  let out := writeUsage (fd w) HID_REPORT_TYPE_OUTPUT in
  event_loop_event ev w =
    pthread_mutex_unlock
      (fprintf stdout
         (if ev_value ev =? 0 then "--> Hook in place\n"
          else "--> Hook lifted\n") []
         (set_hookstate (ev_value ev)
            (out LEDUsagePage Led_Off_Hook (ev_value ev)
               (if hookstate w =? 0
                then out TelephonyUsagePage Tel_Ringer 0
                       (out LEDUsagePage Led_Ring 0 (pthread_mutex_lock w))
                else pthread_mutex_lock w)))).
Proof.
  intros Hh Hne out. subst out.
  unfold event_loop_event. rewrite Hh.
  change (Z.shiftr (make_usage_code TelephonyUsagePage Tel_Hook_Switch) 16
          =? TelephonyUsagePage) with true.
  change (Z.land (make_usage_code TelephonyUsagePage Tel_Hook_Switch) 0xFFFF
          =? Tel_Hook_Switch) with true.
  change (c_true 0) with false.
  cbv zeta iota. vars.
  destruct (Z.eqb_spec (hookstate w) (ev_value ev)); [contradiction|].
  cbn [negb].
  destruct (hookstate w =? 0); vars; now destruct (ev_value ev =? 0).
Qed.

(** The key [o]. *)
Lemma hook_key_eq (w : World K) :
  let out := writeUsage (fd w) HID_REPORT_TYPE_OUTPUT in
  let v := c_not (hookstate w) in
  hit_key "o" w =
    pthread_mutex_unlock
      (fprintf stdout
         (if v =? 0 then "<-- Put back Hook\n" else "<-- Lift Hook\n") []
         (out LEDUsagePage Led_Off_Hook v
            (if hookstate w =? 0
             then out TelephonyUsagePage Tel_Ringer 0
                    (out LEDUsagePage Led_Ring 0
                       (set_hookstate v (pthread_mutex_lock w)))
             else set_hookstate v (pthread_mutex_lock w)))).
Proof.
  intros out v. subst out v.
  unfold hit_key. change (Ascii.eqb "o" "o") with true.
  cbv zeta iota. vars. rewrite c_not_is_1.
  destruct (hookstate w =? 0); vars; now destruct (c_not (hookstate w) =? 0).
Qed.

(** Three writes in a row, seen from the device. *)
Lemma three_attempts d p1 c1 v1 p2 c2 v2 p3 c3 v3 (w : World K) :
  exists l1 l2 l3,
    extends w (l1 ++ l2 ++ l3)
      (writeUsage d HID_REPORT_TYPE_OUTPUT p3 c3 v3
         (writeUsage d HID_REPORT_TYPE_OUTPUT p2 c2 v2
            (writeUsage d HID_REPORT_TYPE_OUTPUT p1 c1 v1 w)))
    /\ write_attempt (make_usage_code p1 c1) v1 l1
    /\ write_attempt (make_usage_code p2 c2) v2 l2
    /\ write_attempt (make_usage_code p3 c3) v3 l3.
Proof.
  destruct (writeUsage_attempt d HID_REPORT_TYPE_OUTPUT p1 c1 v1 w)
    as (l1 & E1 & A1).
  destruct (writeUsage_attempt d HID_REPORT_TYPE_OUTPUT p2 c2 v2
              (writeUsage d HID_REPORT_TYPE_OUTPUT p1 c1 v1 w))
    as (l2 & E2 & A2).
  destruct (writeUsage_attempt d HID_REPORT_TYPE_OUTPUT p3 c3 v3
              (writeUsage d HID_REPORT_TYPE_OUTPUT p2 c2 v2
                 (writeUsage d HID_REPORT_TYPE_OUTPUT p1 c1 v1 w)))
    as (l3 & E3 & A3).
  exists l1, l2, l3. split; [|split; [|split]]; try assumption.
  unfold extends in *. now rewrite E3, E2, E1, <- !app_assoc.
Qed.

Lemma hook_event_shape ev (w : World K) :
  hid ev = make_usage_code TelephonyUsagePage Tel_Hook_Switch ->
  hookstate w <> ev_value ev ->
  exists l, extends w l (event_loop_event ev w)
    /\ hook_path_shape (hookstate w) (ev_value ev) l.
Proof.
  intros Hh Hne. rewrite (hook_event_eq ev w Hh Hne). cbv zeta.
  unfold hook_path_shape, extends.
  destruct (hookstate w =? 0).
  - destruct (three_attempts (fd w) LEDUsagePage Led_Ring 0
                TelephonyUsagePage Tel_Ringer 0
                LEDUsagePage Led_Off_Hook (ev_value ev)
                (pthread_mutex_lock w)) as (l1 & l2 & l3 & E & A1 & A2 & A3).
    unfold extends in E. vars. rewrite E. cbn [trace pthread_mutex_lock emit].
    eexists. split.
    + rewrite <- !app_assoc. cbn [app]. reflexivity.
    + exists l1, l2, l3. eexists.
      split; [reflexivity|]. split; [|split; [|split]]; try assumption.
      reflexivity.
  - destruct (writeUsage_attempt (fd w) HID_REPORT_TYPE_OUTPUT LEDUsagePage
                Led_Off_Hook (ev_value ev) (pthread_mutex_lock w))
      as (l3 & E & A3).
    unfold extends in E. vars. rewrite E. cbn [trace pthread_mutex_lock emit].
    eexists. split.
    + rewrite <- !app_assoc. cbn [app]. reflexivity.
    + exists l3. eexists.
      split; [reflexivity|]. split; [assumption|reflexivity].
Qed.

Lemma hook_key_shape (w : World K) :
  exists l, extends w l (hit_key "o" w)
    /\ hook_path_shape (hookstate w) (c_not (hookstate w)) l.
Proof.
  rewrite (hook_key_eq w). cbv zeta.
  unfold hook_path_shape, extends.
  destruct (hookstate w =? 0).
  - destruct (three_attempts (fd w) LEDUsagePage Led_Ring 0
                TelephonyUsagePage Tel_Ringer 0
                LEDUsagePage Led_Off_Hook (c_not (hookstate w))
                (set_hookstate (c_not (hookstate w)) (pthread_mutex_lock w)))
      as (l1 & l2 & l3 & E & A1 & A2 & A3).
    unfold extends in E. vars. rewrite E.
    cbn [trace pthread_mutex_lock emit set_hookstate].
    eexists. split.
    + rewrite <- !app_assoc. cbn [app]. reflexivity.
    + exists l1, l2, l3. eexists.
      split; [reflexivity|]. split; [|split; [|split]]; try assumption.
      reflexivity.
  - destruct (writeUsage_attempt (fd w) HID_REPORT_TYPE_OUTPUT LEDUsagePage
                Led_Off_Hook (c_not (hookstate w))
                (set_hookstate (c_not (hookstate w)) (pthread_mutex_lock w)))
      as (l3 & E & A3).
    unfold extends in E. vars. rewrite E.
    cbn [trace pthread_mutex_lock emit set_hookstate].
    eexists. split.
    + rewrite <- !app_assoc. cbn [app]. reflexivity.
    + exists l3. eexists.
      split; [reflexivity|]. split; [assumption|reflexivity].
Qed.

(** C3, as far as it holds: a hook-switch event whose value differs from
    [hookstate].  Coming from [hookstate = 0] the reconciler calls
    [writeUsage] with 0 for the ring LED, then with 0 for the ringer,
    then with the event value for the off-hook LED, and stores the value
    in [hookstate].  Coming from any other [hookstate] (so in particular
    when the hook is put back) the two ring writes are left out: the
    off-hook LED is written and [hookstate] set, nothing more.  What each
    write sends is settled by the answers of the kernel at that point:
    the requests of the transaction up to the first that is refused or
    to the range check, the value staged only past the lookups and the
    range check, the report committed only when the value was taken.
    [hookstate] is set whether or not the writes got through. *)
Theorem hook_switch_event ev (w : World K) :
  hid ev = make_usage_code TelephonyUsagePage Tel_Hook_Switch ->
  hookstate w <> ev_value ev ->
  let v := ev_value ev in
  let out := writeUsage (fd w) HID_REPORT_TYPE_OUTPUT in
  let far := fun x : World K =>
               write_progress (kernel x) (fd w) HID_REPORT_TYPE_OUTPUT in
  let w1 := out LEDUsagePage Led_Ring 0 (pthread_mutex_lock w) in
  let w2 := out TelephonyUsagePage Tel_Ringer 0 w1 in
  let w' := event_loop_event ev w in
  hookstate w' = v
  /\ (hookstate w = 0 ->
       w' = pthread_mutex_unlock
              (fprintf stdout "--> Hook lifted\n" []
                 (set_hookstate v (out LEDUsagePage Led_Off_Hook v w2)))
       /\ exists l1 l2 l3,
            trace w' = trace w ++ Mutex_lock :: l1 ++ l2 ++ l3
                         ++ [Fprintf stdout "--> Hook lifted\n" [];
                             Mutex_unlock]
            /\ write_made code_Led_Ring 0 (far w LEDUsagePage Led_Ring 0) l1
            /\ write_made code_Tel_Ringer 0
                 (far w1 TelephonyUsagePage Tel_Ringer 0) l2
            /\ write_made code_Led_Off_Hook v
                 (far w2 LEDUsagePage Led_Off_Hook v) l3)
  /\ (hookstate w <> 0 ->
       w' = pthread_mutex_unlock
              (fprintf stdout
                 (if v =? 0 then "--> Hook in place\n"
                  else "--> Hook lifted\n") []
                 (set_hookstate v
                    (out LEDUsagePage Led_Off_Hook v
                       (pthread_mutex_lock w))))
       /\ exists l3,
            trace w' = trace w ++ Mutex_lock :: l3
                         ++ [Fprintf stdout
                               (if v =? 0 then "--> Hook in place\n"
                                else "--> Hook lifted\n") [];
                             Mutex_unlock]
            /\ write_made code_Led_Off_Hook v
                 (far w LEDUsagePage Led_Off_Hook v) l3).
Proof.
  intros Hh Hne v out far w1 w2 w'. subst v out far w1 w2 w'.
  rewrite (hook_event_eq ev w Hh Hne). cbv zeta beta.
  split; [reflexivity|]. split; intros H0.
  - rewrite H0 in *. change (0 =? 0) with true. cbv iota.
    destruct (Z.eqb_spec (ev_value ev) 0) as [E|_]; [congruence|].
    split; [reflexivity|].
    destruct (writeUsage_progress (fd w) HID_REPORT_TYPE_OUTPUT LEDUsagePage
                Led_Ring 0 (pthread_mutex_lock w)) as (l1 & E1 & M1).
    destruct (writeUsage_progress (fd w) HID_REPORT_TYPE_OUTPUT
                TelephonyUsagePage Tel_Ringer 0
                (writeUsage (fd w) HID_REPORT_TYPE_OUTPUT LEDUsagePage
                   Led_Ring 0 (pthread_mutex_lock w))) as (l2 & E2 & M2).
    destruct (writeUsage_progress (fd w) HID_REPORT_TYPE_OUTPUT LEDUsagePage
                Led_Off_Hook (ev_value ev)
                (writeUsage (fd w) HID_REPORT_TYPE_OUTPUT
                   TelephonyUsagePage Tel_Ringer 0
                   (writeUsage (fd w) HID_REPORT_TYPE_OUTPUT LEDUsagePage
                      Led_Ring 0 (pthread_mutex_lock w))))
      as (l3 & E3 & M3).
    exists l1, l2, l3.
    split; [|split; [exact M1|split; [exact M2|exact M3]]].
    unfold extends in E1, E2, E3. vars. rewrite E3, E2, E1.
    cbn [trace pthread_mutex_lock emit].
    rewrite <- !app_assoc. reflexivity.
  - destruct (Z.eqb_spec (hookstate w) 0) as [E|_]; [contradiction|].
    split; [reflexivity|].
    destruct (writeUsage_progress (fd w) HID_REPORT_TYPE_OUTPUT LEDUsagePage
                Led_Off_Hook (ev_value ev) (pthread_mutex_lock w))
      as (l3 & E & M3).
    exists l3. split; [|exact M3].
    unfold extends in E. vars. rewrite E. cbn [trace pthread_mutex_lock emit].
    rewrite <- !app_assoc. reflexivity.
Qed.

(** C4, as far as it holds: a mute-button event with value 1 toggles
    [mutestate] and calls [writeUsage] for the mute LED with the new
    value; what that write sends is settled by the answers of the
    kernel, and [mutestate] is toggled whether or not it got through.
    With any other value, 0 in particular, [mutestate] stays and no
    request goes to the device. *)
Theorem mute_button_event ev (w : World K) :
  hid ev = make_usage_code TelephonyUsagePage Tel_Phone_Mute ->
  let m := c_not (mutestate w) in
  let said := if m =? 0 then "--> Unmuted\n" else "--> Muted\n" in
  let n := write_progress (kernel w) (fd w) HID_REPORT_TYPE_OUTPUT
             LEDUsagePage Led_Mute m in
  let w' := event_loop_event ev w in
  (ev_value ev = 1 ->
     w' = pthread_mutex_unlock
            (fprintf stdout said []
               (writeUsage (fd w) HID_REPORT_TYPE_OUTPUT LEDUsagePage
                  Led_Mute m (set_mutestate m (pthread_mutex_lock w))))
     /\ mutestate w' = m
     /\ exists l, trace w' = trace w ++ Mutex_lock :: l
                     ++ [Fprintf stdout said []; Mutex_unlock]
          /\ write_made code_Led_Mute m n l)
  /\ (ev_value ev <> 1 ->
       w' = pthread_mutex_unlock (pthread_mutex_lock w)
       /\ mutestate w' = mutestate w
       /\ kernel w' = kernel w
       /\ trace w' = trace w ++ [Mutex_lock; Mutex_unlock]
       /\ requests (trace w') = requests (trace w)).
Proof.
  intros Hh m said n w'.
  assert (Hw : w' = pthread_mutex_unlock
    (if ev_value ev =? 1 then
       fprintf stdout said []
         (writeUsage (fd w) HID_REPORT_TYPE_OUTPUT LEDUsagePage
            Led_Mute m (set_mutestate m (pthread_mutex_lock w)))
     else pthread_mutex_lock w)).
  { subst w' said m. unfold event_loop_event. rewrite Hh.
    change (Z.shiftr (make_usage_code TelephonyUsagePage Tel_Phone_Mute) 16
            =? TelephonyUsagePage) with true.
    change (Z.land (make_usage_code TelephonyUsagePage Tel_Phone_Mute) 0xFFFF
            =? Tel_Hook_Switch) with false.
    change (Z.land (make_usage_code TelephonyUsagePage Tel_Phone_Mute) 0xFFFF
            =? Tel_Phone_Mute) with true.
    change (c_true 0) with false.
    cbv zeta iota. vars.
    destruct (ev_value ev =? 1); [|reflexivity].
    now destruct (c_not (mutestate w) =? 0). }
  rewrite Hw. split; intros Hv.
  - rewrite Hv. change (1 =? 1) with true. cbv iota.
    split; [reflexivity|]. split; [now vars|].
    destruct (writeUsage_progress (fd w) HID_REPORT_TYPE_OUTPUT LEDUsagePage
                Led_Mute m (set_mutestate m (pthread_mutex_lock w)))
      as (l & E & M).
    exists l. split; [|exact M].
    unfold extends in E. vars. rewrite E.
    cbn [trace pthread_mutex_lock emit set_mutestate].
    rewrite <- !app_assoc. reflexivity.
  - destruct (Z.eqb_spec (ev_value ev) 1) as [E|_]; [contradiction|].
    split; [reflexivity|]. split; [reflexivity|]. split; [reflexivity|].
    assert (Ht : trace (pthread_mutex_unlock (pthread_mutex_lock w))
                 = trace w ++ [Mutex_lock; Mutex_unlock]).
    { cbn. now rewrite <- app_assoc. }
    split; [exact Ht|]. rewrite Ht, requests_app. cbn. apply app_nil_r.
Qed.

(** C7, as far as it holds: the key [r] flips [ringerstate] whatever it
    was and calls [writeUsage] with the new value for the ring LED and
    then for the ringer, the same value for both.  What each of the two
    writes sends is settled by the answers of the kernel at that point,
    so the two usages end up with the same value on the device when both
    writes get through, and [ringerstate] is flipped in any case.  The
    hook paths, the key [o] and the hook-switch event, write to these
    two usages only when leaving [hookstate = 0], and then write 0. *)
Theorem ringer_toggle (w : World K) :
  let r := c_not (ringerstate w) in
  let out := writeUsage (fd w) HID_REPORT_TYPE_OUTPUT in
  let far := fun x : World K =>
               write_progress (kernel x) (fd w) HID_REPORT_TYPE_OUTPUT in
  let w1 := out LEDUsagePage Led_Ring r
              (set_ringerstate r (pthread_mutex_lock w)) in
  let w' := hit_key "r" w in
  w' = pthread_mutex_unlock (out TelephonyUsagePage Tel_Ringer r w1)
  /\ ringerstate w' = r
  /\ (exists l1 l2,
        trace w' = trace w ++ Mutex_lock :: l1 ++ l2 ++ [Mutex_unlock]
        /\ write_made code_Led_Ring r (far w LEDUsagePage Led_Ring r) l1
        /\ write_made code_Tel_Ringer r
             (far w1 TelephonyUsagePage Tel_Ringer r) l2)
  /\ (exists l, extends w l (hit_key "o" w)
        /\ hook_path_shape (hookstate w) (c_not (hookstate w)) l)
  /\ (forall ev,
        hid ev = make_usage_code TelephonyUsagePage Tel_Hook_Switch ->
        hookstate w <> ev_value ev ->
        exists l, extends w l (event_loop_event ev w)
          /\ hook_path_shape (hookstate w) (ev_value ev) l)
  /\ (forall ev,
        hid ev = make_usage_code TelephonyUsagePage Tel_Hook_Switch ->
        hookstate w = ev_value ev ->
        event_loop_event ev w
          = pthread_mutex_unlock (pthread_mutex_lock w)).
Proof.
  intros r out far w1 w'.
  assert (Hw : w' = pthread_mutex_unlock
                      (out TelephonyUsagePage Tel_Ringer r w1)).
  { subst w' w1 out r. unfold hit_key.
    change (Ascii.eqb "r" "o") with false.
    change (Ascii.eqb "r" "m") with false.
    change (Ascii.eqb "r" "r") with true.
    cbv zeta iota. now vars. }
  split; [exact Hw|]. rewrite Hw. subst w1 far out. cbv beta.
  split; [now vars|].
  split; [|split; [apply hook_key_shape|
                   split; [intros ev; apply hook_event_shape|]]].
  2: { intros ev Hh Heq. unfold event_loop_event. rewrite Hh.
       change (Z.shiftr (make_usage_code TelephonyUsagePage Tel_Hook_Switch)
                 16 =? TelephonyUsagePage) with true.
       change (Z.land (make_usage_code TelephonyUsagePage Tel_Hook_Switch)
                 0xFFFF =? Tel_Hook_Switch) with true.
       change (c_true 0) with false. cbv zeta iota. vars.
       now rewrite Heq, Z.eqb_refl. }
  destruct (writeUsage_progress (fd w) HID_REPORT_TYPE_OUTPUT LEDUsagePage
              Led_Ring r (set_ringerstate r (pthread_mutex_lock w)))
    as (l1 & E1 & M1).
  destruct (writeUsage_progress (fd w) HID_REPORT_TYPE_OUTPUT
              TelephonyUsagePage Tel_Ringer r
              (writeUsage (fd w) HID_REPORT_TYPE_OUTPUT LEDUsagePage
                 Led_Ring r (set_ringerstate r (pthread_mutex_lock w))))
    as (l2 & E2 & M2).
  exists l1, l2. split; [|split; [exact M1|exact M2]].
  unfold extends in E1, E2. vars. rewrite E2, E1.
  cbn [trace pthread_mutex_lock emit set_ringerstate].
  rewrite <- !app_assoc. reflexivity.
Qed.

(** *** The stored states under keys and events *)

Ltac branches :=
  repeat (vars; cbn [Ascii.eqb Bool.eqb];
          try match goal with
              | |- context [if ?b then _ else _] => destruct b eqn:?
              end).

(** Telling the keys apart. *)
Ltac on_key key c :=
  destruct (Ascii.eqb_spec key c) as [->|?];
  [branches; try reflexivity|].

Lemma hit_key_hookstate key (w : World K) :
  hookstate (hit_key key w) =
    if Ascii.eqb key "o" then c_not (hookstate w) else hookstate w.
Proof.
  unfold hit_key. cbv zeta.
  on_key key "o"%char. branches; reflexivity.
Qed.

Lemma hit_key_mutestate key (w : World K) :
  mutestate (hit_key key w) =
    if Ascii.eqb key "m" then c_not (mutestate w) else mutestate w.
Proof.
  unfold hit_key. cbv zeta.
  on_key key "o"%char. on_key key "m"%char. branches; reflexivity.
Qed.

Lemma hit_key_ringerstate key (w : World K) :
  ringerstate (hit_key key w) =
    if Ascii.eqb key "r" then c_not (ringerstate w) else ringerstate w.
Proof.
  unfold hit_key. cbv zeta.
  on_key key "o"%char. on_key key "m"%char. on_key key "r"%char.
  branches; reflexivity.
Qed.

Lemma hit_key_run key (w : World K) :
  run (hit_key key w) = if Ascii.eqb key "q" then 0 else run w.
Proof.
  unfold hit_key. cbv zeta.
  on_key key "o"%char. on_key key "m"%char. on_key key "r"%char.
  branches; reflexivity.
Qed.

Lemma c_true_c_not x : c_true (c_not x) = negb (c_true x).
Proof. unfold c_true, c_not. now destruct (x =? 0). Qed.

Lemma c_not_c_not x : x = 0 \/ x = 1 -> c_not (c_not x) = x.
Proof. now intros [-> | ->]. Qed.

(** C8: pressing [o], [m] or [r] twice in a row brings the call state
    back to what it was.  As truth values this holds for every stored
    state; the stored [int] itself comes back whenever it held 0 or 1,
    the two values a toggle ever stores. *)
Theorem double_toggle (w : World K) :
  (call_state (hit_key "o" (hit_key "o" w)) = call_state w
   /\ call_state (hit_key "m" (hit_key "m" w)) = call_state w
   /\ call_state (hit_key "r" (hit_key "r" w)) = call_state w)
  /\ (hookstate w = 0 \/ hookstate w = 1 ->
       hookstate (hit_key "o" (hit_key "o" w)) = hookstate w)
  /\ (mutestate w = 0 \/ mutestate w = 1 ->
       mutestate (hit_key "m" (hit_key "m" w)) = mutestate w)
  /\ (ringerstate w = 0 \/ ringerstate w = 1 ->
       ringerstate (hit_key "r" (hit_key "r" w)) = ringerstate w).
Proof.
  unfold call_state.
  rewrite !hit_key_hookstate, !hit_key_mutestate, !hit_key_ringerstate.
  cbn [Ascii.eqb Bool.eqb].
  rewrite !c_true_c_not, !negb_involutive.
  repeat split; apply c_not_c_not.
Qed.

(** *** Arrivals under the lock *)

(** The two tests of [event_loop] single out one usage code. *)
Lemma hook_switch_tests h :
  (Z.shiftr h 16 =? TelephonyUsagePage)
  && (Z.land h 0xFFFF =? Tel_Hook_Switch) = (h =? 0x000B0020).
Proof.
  change TelephonyUsagePage with 11. change Tel_Hook_Switch with 32.
  rewrite Z.shiftr_div_pow2 by lia.
  change 0xFFFF with (Z.ones 16). rewrite Z.land_ones by lia.
  pose proof (Z.div_mod h (2 ^ 16)) as D.
  destruct (Z.eqb_spec (h / 2 ^ 16) 11), (Z.eqb_spec (h mod 2 ^ 16) 32),
    (Z.eqb_spec h 0x000B0020); cbn; try reflexivity; exfalso; try lia.
  all: subst h; auto.
Qed.

Lemma event_loop_event_hookstate ev (w : World K) :
  hookstate (event_loop_event ev w) =
    if is_hook_switch ev then ev_value ev else hookstate w.
Proof.
  unfold is_hook_switch. rewrite <- hook_switch_tests.
  unfold event_loop_event. change (c_true 0) with false. cbv zeta iota.
  destruct (Z.shiftr (hid ev) 16 =? TelephonyUsagePage);
    destruct (Z.land (hid ev) 65535 =? Tel_Hook_Switch); cbn [andb]; vars.
  - destruct (Z.eqb_spec (hookstate w) (ev_value ev)); cbn [negb];
      branches; auto.
  - branches; reflexivity.
  - branches; reflexivity.
  - branches; reflexivity.
Qed.

Lemma event_loop_event_run ev (w : World K) :
  run (event_loop_event ev w) = run w.
Proof.
  unfold event_loop_event. change (c_true 0) with false. cbv zeta iota.
  branches; reflexivity.
Qed.

Lemma process_hook (w : World K) a :
  c_true (hookstate (process w a)) =
    xorb (c_true (hookstate w)) (hook_effect (c_true (hookstate w)) a).
Proof.
  destruct a as [ev|key]; cbn [process hook_effect].
  - rewrite event_loop_event_hookstate.
    destruct (is_hook_switch ev).
    + now rewrite <- xorb_assoc, xorb_nilpotent, xorb_false_l.
    + now rewrite xorb_false_r.
  - rewrite hit_key_hookstate.
    destruct (Ascii.eqb key "o").
    + now rewrite c_true_c_not, xorb_true_r.
    + now rewrite xorb_false_r.
Qed.

Lemma process_boolean (w : World K) a :
  hookstate w = 0 \/ hookstate w = 1 ->
  boolean_arrival a ->
  hookstate (process w a) = 0 \/ hookstate (process w a) = 1.
Proof.
  intros Hw Ha. destruct a as [ev|key]; cbn [process boolean_arrival] in *.
  - rewrite event_loop_event_hookstate. now destruct (is_hook_switch ev).
  - rewrite hit_key_hookstate. destruct (Ascii.eqb key "o"); [|assumption].
    unfold c_not. destruct (hookstate w =? 0); auto.
Qed.

Lemma serialized_boolean (l : list arrival) (w : World K) :
  hookstate w = 0 \/ hookstate w = 1 ->
  Forall boolean_arrival l ->
  hookstate (serialized l w) = 0 \/ hookstate (serialized l w) = 1.
Proof.
  unfold serialized. intros Hw Hl. revert w Hw.
  induction Hl as [|a l Ha Hl IH]; intros w Hw; cbn [fold_left];
    [assumption|].
  apply IH. now apply process_boolean.
Qed.

(** C9: take any sequence of hook-switch events and hook toggles, and any
    other events and keys between them, each handled as a whole in the
    order of arrival.  The hook state at the end is the hook state at the
    start XORed with the effect of each arrival in turn: every toggle and
    every event reporting the other state counts once, none is lost.
    When the stored [int] starts as 0 or 1 and the events report 0 or 1,
    the stored [int] at the end is that truth value itself. *)
Theorem serialized_hook_state (l : list arrival) (w : World K) :
  c_true (hookstate (serialized l w)) = xor_effects (c_true (hookstate w)) l
  /\ (hookstate w = 0 \/ hookstate w = 1 ->
      Forall boolean_arrival l ->
      hookstate (serialized l w)
        = Z.b2z (xor_effects (c_true (hookstate w)) l)).
Proof.
  assert (Hx : forall w : World K,
    c_true (hookstate (serialized l w))
      = xor_effects (c_true (hookstate w)) l).
  { unfold serialized, xor_effects.
    induction l as [|a l IH]; intros w0; cbn [fold_left]; [reflexivity|].
    now rewrite IH, process_hook. }
  split; [apply Hx|].
  intros Hw Hl. rewrite <- Hx.
  now destruct (serialized_boolean l w Hw Hl) as [-> | ->].
Qed.

(** *** Shutdown *)

(** Nothing in the program sets [run] back to 1. *)
Lemma main_step_run_zero pc b (w : World K) :
  run w = 0 -> run (snd (main_step pc b w)) = 0.
Proof.
  intros Hr. destruct pc as [rv|rv|rv|st]; cbn [main_step].
  - cbn [snd]. vars. now rewrite hit_key_run.
  - rewrite Hr. exact Hr.
  - destruct (sys_pthread_join (kernel w)) as [r k].
    destruct (c_true r || b); [|exact Hr].
    destruct (c_true r); cbn [snd]; unfold close; vars; exact Hr.
  - exact Hr.
Qed.

Lemma event_loop_step_run_zero pc (w : World K) :
  run w = 0 -> run (snd (event_loop_step pc w)) = 0.
Proof.
  intros Hr. destruct pc as [|ev rd i|r]; cbn [event_loop_step].
  - rewrite Hr. exact Hr.
  - destruct (i <? rd / sizeof_ev0); cbn [snd]; vars; [|exact Hr].
    now rewrite event_loop_event_run.
  - exact Hr.
Qed.

Lemma step_run_zero (s : System K) t :
  run (sys_world s) = 0 -> run (sys_world (step s t)) = 0.
Proof.
  intros Hr. unfold step. destruct (exited (sys_main s)); [exact Hr|].
  destruct t.
  - pose proof (main_step_run_zero (sys_main s) (returned (sys_event s))
                  (sys_world s) Hr) as Hs.
    now destruct (main_step _ _ _).
  - pose proof (event_loop_step_run_zero (sys_event s) (sys_world s) Hr)
      as Hs.
    now destruct (event_loop_step _ _).
Qed.

Lemma run_schedule_run_zero sch (s : System K) :
  run (sys_world s) = 0 -> run (sys_world (run_schedule sch s)) = 0.
Proof.
  unfold run_schedule. revert s.
  induction sch as [|t sch IH]; intros s Hr; cbn [fold_left];
    [exact Hr|].
  apply IH. now apply step_run_zero.
Qed.

(** C6: the event thread is at the head of its loop with [run] set,
    [select] says the device is readable, and [read] gives an error or
    fewer bytes than one event.  Then the thread reports it, sets [run]
    to 0 and returns [(void* )-1], which is not null.  [main], when it
    next tests [run] at the head of its polling loop, leaves the loop;
    and [run] is 0 for good, whatever is scheduled after. *)
Theorem short_read_shuts_down (s : System K) rv rd k1 n ev k2 :
  let w := sys_world s in
  sys_main s = Main_while rv ->
  sys_event s = EL_while ->
  run w = 1 ->
  sys_select (kernel w) (fd w + 1) = (rd, k1) -> 0 < rd ->
  sys_read_events k1 (fd w) sizeof_ev = (n, ev, k2) -> n < sizeof_ev0 ->
  let s1 := step s Event_thread in
  sys_event s1 = EL_returned (-1) /\ -1 <> 0
  /\ (forall fuel, event_loop (S fuel) w = (Some (-1), sys_world s1))
  /\ run (sys_world s1) = 0
  /\ trace (sys_world s1) = trace w ++
       [Select (fd w + 1) rd; Read (fd w) sizeof_ev n;
        if n <? 0 then Perror "error reading" (errno k2)
        else Fprintf stderr "got too short read from device\n" []]
  /\ sys_main (step s1 Main_thread) = Main_join rv
  /\ sys_world (step s1 Main_thread) = sys_world s1
  /\ forall sch, run (sys_world (run_schedule sch s1)) = 0.
Proof.
  intros w Hm He Hr Hsel Hrd Hread Hn s1.
  assert (Hstep : event_loop_step EL_while w =
    (EL_returned (-1),
     set_run 0
       ((if n <? 0 then perror "error reading"
         else fprintf stderr "got too short read from device\n" [])
          (emit (Read (fd w) sizeof_ev n)
             (set_kernel k2
                (emit (Select (fd w + 1) rd) (set_kernel k1 w))))))).
  { cbn [event_loop_step]. rewrite Hr. change (1 =? 1) with true. cbv iota.
    unfold select, sys. rewrite Hsel.
    destruct (Z.gtb_spec rd 0); [|lia].
    unfold read_events. vars. rewrite Hread.
    destruct (Z.ltb_spec n sizeof_ev0); [|lia].
    now destruct (n <? 0). }
  assert (Hs1 : s1 =
    {| sys_world := snd (event_loop_step EL_while w);
       sys_main := Main_while rv;
       sys_event := EL_returned (-1) |}).
  { subst s1. unfold step. rewrite Hm, He. cbn [exited]. fold w.
    now rewrite Hstep. }
  rewrite Hs1. cbn [sys_event sys_world sys_main].
  split; [reflexivity|]. split; [discriminate|].
  split; [|rewrite Hstep; cbn [snd]; split; [reflexivity|]].
  - intros fuel. unfold event_loop. cbn [event_loop_from].
    rewrite Hstep. now destruct fuel.
  - split; [|split; [reflexivity|split; [reflexivity|]]].
    + destruct (n <? 0); cbn; rewrite <- !app_assoc; reflexivity.
    + intros sch. now apply run_schedule_run_zero.
Qed.

(** *** What [main] returns *)

Lemma step_retval_ok (s : System K) t :
  main_retval_ok (sys_main s) (sys_world s) ->
  main_retval_ok (sys_main (step s t)) (sys_world (step s t)).
Proof.
  intros Hok. unfold step.
  destruct (exited (sys_main s)) eqn:Hex; [exact Hok|].
  destruct t.
  - destruct (sys_main s) as [rv|rv|rv|st]; cbn [main_step exited] in *;
      try discriminate.
    + exact Hok.
    + destruct (run (sys_world s) =? 1).
      * destruct (read_char (sys_world s)) as [[? ?] ?]. exact Hok.
      * exact Hok.
    + destruct (sys_pthread_join (kernel (sys_world s))) as [r k].
      destruct (c_true r || returned (sys_event s)); [|exact Hok].
      unfold c_true. destruct (Z.eqb_spec r 0) as [->|Hr];
        cbn [negb sys_main sys_world main_retval_ok];
        unfold close; vars.
      * left. split; [exact Hok|].
        rewrite !in_app_iff. left. right. now left.
      * right. split; [reflexivity|]. exists r. split; [exact Hr|].
        rewrite !in_app_iff. left. left. right. now left.
  - destruct (event_loop_step (sys_event s) (sys_world s)) as [pc w'].
    cbn [sys_main sys_world].
    destruct (sys_main s); cbn [main_retval_ok exited] in *;
      try exact Hok; discriminate.
Qed.

Lemma run_schedule_retval_ok sch (s : System K) :
  main_retval_ok (sys_main s) (sys_world s) ->
  main_retval_ok (sys_main (run_schedule sch s))
    (sys_world (run_schedule sch s)).
Proof.
  unfold run_schedule. revert s.
  induction sch as [|t sch IH]; intros s Hok; cbn [fold_left];
    [exact Hok|].
  apply IH. now apply step_retval_ok.
Qed.

Lemma main_returns_by_join sch (w w1 : World K) :
  main_startup w = (None, w1) ->
  match main sch w with
  | (Some st, w') =>
      (st = 0 /\ In (Pthread_join 0) (trace w'))
      \/ (st = -1 /\ exists r, r <> 0 /\ In (Pthread_join r) (trace w'))
  | (None, _) => True
  end.
Proof.
  intros Hs. unfold main. rewrite Hs. cbv zeta.
  pose proof (run_schedule_retval_ok sch
    {| sys_world := w1; sys_main := Main_started 0; sys_event := EL_while |}
    eq_refl) as Hok.
  destruct (sys_main (run_schedule sch _)); cbn [main_retval_ok] in Hok;
    auto.
Qed.

Lemma main_startup_status (w w' : World K) st :
  main_startup w = (Some st, w') -> st = -1.
Proof.
  unfold main_startup.
  repeat match goal with
  | |- context [match ?x with (_, _) => _ end] => destruct x
  | |- context [if ?b then _ else _] => destruct b
  end; intros E; inversion E; reflexivity.
Qed.

(** What [main] can return: -1 from the start-up, and after it 0 or -1
    as [pthread_join] decides. *)
Lemma main_status sch (w : World K) :
  match main sch w with
  | (Some st, w') =>
      st = -1 \/ (st = 0 /\ In (Pthread_join 0) (trace w'))
  | (None, _) => True
  end.
Proof.
  destruct (main_startup w) as [[st|] w1] eqn:E.
  - unfold main. rewrite E. left. now apply (main_startup_status w w1).
  - pose proof (main_returns_by_join sch w w1 E) as Hj.
    destruct (main sch w) as [[st|] w']; [|exact I].
    destruct Hj as [Hj|[-> _]]; auto.
Qed.

End Generic.

(** ** Runs on the headset *)

(** Lifting the hook on the device while the ringer is on: ring LED and
    ringer go off, the off-hook LED goes on. *)
Example hook_lifted_while_ringing :
  let w := hit_key "r" (opened Sim.headset) in
  device_values w = [0; 0; 1; 1]
  /\ device_values (event_loop_event (hook_switch 1) w) = [0; 1; 0; 0]
  /\ hookstate (event_loop_event (hook_switch 1) w) = 1.
Proof. vm_compute. repeat split. Qed.

(** Mute toggled twice from [mutestate = 0]. *)
Example mute_twice :
  let w1 := hit_key "m" (opened Sim.headset) in
  let w2 := hit_key "m" w1 in
  mutestate w1 = 1 /\ device_values w1 = [1; 0; 0; 0]
  /\ mutestate w2 = 0 /\ device_values w2 = [0; 0; 0; 0].
Proof. vm_compute. repeat split. Qed.

(** What [main] returns: 0 after [q] and a successful join; -1 when
    no node belongs to the vendor, when the node cannot be opened a
    second time, when the thread cannot be created, and when it cannot
    be joined. *)
Example exit_statuses :
  fst (main main_first (Sim.boot (quit_pressed Sim.headset))) = Some 0
  /\ fst (main [] (Sim.boot (Sim.with_nodes [] Sim.headset))) = Some (-1)
  /\ fst (main []
            (Sim.boot
               (Sim.with_nodes
                  [{| Sim.nd_path := "/dev/usb/hiddev0";
                      Sim.nd_vendor := JABRA_VID; Sim.nd_opens := 1 |}]
                  Sim.headset))) = Some (-1)
  /\ fst (main [] (Sim.boot (Sim.with_create_ret Sim.EAGAIN Sim.headset)))
     = Some (-1)
  /\ fst (main main_first
            (Sim.boot (Sim.with_join_ret Sim.EINVAL
                         (quit_pressed Sim.headset)))) = Some (-1).
Proof. vm_compute. repeat split. Qed.


(** Writing 1 to the mute LED of a headset that answers. *)
Lemma writeUsage_in_range_witness :
  let w := opened Sim.headset in
  let w' := writeUsage 3 HID_REPORT_TYPE_OUTPUT LEDUsagePage Led_Mute 1 w in
  requests (trace w') = [GUSAGE; GFIELDINFO; SUSAGE; SREPORT].
Proof.
  cbv zeta.
  edestruct (writeUsage_in_range (K := Sim.t) 3 HID_REPORT_TYPE_OUTPUT
               LEDUsagePage Led_Mute 1 (opened Sim.headset))
    as (_ & Hok & _).
  - reflexivity.
  - apply Z.leb_le. reflexivity.
  - reflexivity.
  - apply Z.leb_le. reflexivity.
  - split; apply Z.leb_le; reflexivity.
  - reflexivity.
  - reflexivity.
  - destruct Hok as (Hq & _); [apply Z.leb_le; reflexivity|exact Hq].
Defined.

(** C2 as it is worded fails: the headset is unplugged after the field
    has been fetched.  The usage was found, 1 is within the range 0 to 1
    of its field, and yet the requests stop at HIDIOCSUSAGE: no report is
    committed. *)
Lemma writeUsage_unplugged_after_lookup :
  let w := opened (Sim.with_plugged 2 Sim.headset) in
  let w' := writeUsage 3 HID_REPORT_TYPE_OUTPUT LEDUsagePage Led_Mute 1 w in
  (exists u0 r1 u1 f0 r2 f1,
     trace w' = [Ioctl_GUSAGE 3 u0 r1; Ioctl_GFIELDINFO 3 f0 r2;
                 Ioctl_SUSAGE 3 (uref_set_value 1 u1) (-1);
                 Perror "HIDIOCSUSAGE" Sim.ENODEV]
     /\ HIDIOCGUSAGE (kernel w) 3 u0 = (r1, u1, Sim.with_plugged 1 Sim.headset)
     /\ 0 <= r1
     /\ HIDIOCGFIELDINFO (Sim.with_plugged 1 Sim.headset) 3 f0
          = (r2, f1, Sim.with_plugged 0 Sim.headset)
     /\ 0 <= r2
     /\ logical_minimum f1 <= 1 <= logical_maximum f1)
  /\ requests (trace w') = [GUSAGE; GFIELDINFO; SUSAGE]
  /\ requests (trace w') <> transaction.
Proof.
  cbv zeta. split; [|split; [reflexivity|discriminate]].
  do 6 eexists. split; [reflexivity|].
  split; [reflexivity|]. split; [apply Z.leb_le; reflexivity|].
  split; [reflexivity|]. split; [apply Z.leb_le; reflexivity|].
  split; apply Z.leb_le; reflexivity.
Defined.

(** The hook lifted on a headset that answers: three complete writes,
    of 0, 0 and 1. *)
Lemma hook_switch_event_witness :
  let w := opened Sim.headset in
  let w' := event_loop_event (hook_switch 1) w in
  hookstate w' = 1
  /\ requests (trace w') = transaction ++ transaction ++ transaction
  /\ staged_values (trace w') = [0; 0; 1].
Proof.
  cbv zeta.
  edestruct (hook_switch_event (K := Sim.t) (hook_switch 1)
               (opened Sim.headset)) as (Hh & H0 & _).
  - reflexivity.
  - discriminate.
  - destruct (H0 eq_refl)
      as (_ & l1 & l2 & l3 & Et & (_ & Q1 & S1) & (_ & Q2 & S2)
          & (_ & Q3 & S3)).
    cbv zeta beta in Et.
    split; [exact Hh|]. rewrite Et. split.
    + rewrite requests_app. cbn [requests request_of].
      rewrite !requests_app, Q1, Q2, Q3. vm_compute. reflexivity.
    + rewrite staged_values_app. cbn [staged_values].
      rewrite !staged_values_app, S1, S2, S3. vm_compute. reflexivity.
Defined.

(** C3 as it is worded fails.  On the headset, whose off-hook LED takes
    0 and 1, a hook-switch event with value 2 arrives while [hookstate]
    is 0: the two ring writes go through, the write of 2 to the off-hook
    LED stops at the range check, and [hookstate] is set to 2 all the
    same.  And on a headset that is pulled out after the two ring
    writes, a hook-switch event with value 1: the lookup for the off-hook
    LED is refused, nothing is written to it, and [hookstate] is 1. *)
Lemma hook_switch_write_refused :
  (let w := opened Sim.headset in
   let w' := event_loop_event (hook_switch 2) w in
   hookstate w = 0 /\ hookstate w' = 2
   /\ requests (trace w')
      = transaction ++ transaction ++ [GUSAGE; GFIELDINFO]
   /\ staged_values (trace w') = [0; 0]
   /\ device_values w' = [0; 0; 0; 0])
  /\ (let w := opened (Sim.with_plugged 8 Sim.headset) in
      let w' := event_loop_event (hook_switch 1) w in
      hookstate w = 0 /\ hookstate w' = 1
      /\ requests (trace w') = transaction ++ transaction ++ [GUSAGE]
      /\ staged_values (trace w') = [0; 0]
      /\ device_values w' = [0; 0; 0; 0]).
Proof.
  cbv zeta. split; vm_compute; repeat split.
Defined.

(** The mute button pressed and let go on a headset that answers: the
    press is one complete write of 1, the release does nothing. *)
Lemma mute_button_event_witness :
  let w := opened Sim.headset in
  let w' := event_loop_event (phone_mute 1) w in
  mutestate w' = 1
  /\ requests (trace w') = transaction
  /\ staged_values (trace w') = [1]
  /\ mutestate (event_loop_event (phone_mute 0) w) = 0.
Proof.
  cbv zeta.
  destruct (mute_button_event (K := Sim.t) (phone_mute 1)
              (opened Sim.headset) eq_refl) as (Hon & _).
  destruct (mute_button_event (K := Sim.t) (phone_mute 0)
              (opened Sim.headset) eq_refl) as (_ & Hoff).
  destruct (Hon eq_refl) as (_ & H1 & l & Et & (_ & Q & S)).
  destruct Hoff as (_ & H0 & _); [discriminate|].
  cbv zeta beta in Et.
  split; [exact H1|]. split; [|split; [|exact H0]]; rewrite Et.
  - rewrite requests_app. cbn [requests request_of].
    rewrite requests_app, Q. vm_compute. reflexivity.
  - rewrite staged_values_app. cbn [staged_values].
    rewrite staged_values_app, S. vm_compute. reflexivity.
Defined.

(** C4 as it is worded fails.  The mute button is pressed on a headset
    that has been pulled out: [mutestate] goes from 0 to 1, and the only
    request is the lookup that is refused; no value is handed over and no
    report committed. *)
Lemma mute_button_write_refused :
  let w := opened (Sim.with_plugged 0 Sim.headset) in
  let w' := event_loop_event (phone_mute 1) w in
  mutestate w = 0 /\ mutestate w' = 1
  /\ requests (trace w') = [GUSAGE]
  /\ staged_values (trace w') = []
  /\ device_values w' = [0; 0; 0; 0].
Proof.
  cbv zeta. vm_compute. repeat split.
Defined.

(** The key [r] on a headset that answers: two complete writes of 1. *)
Lemma ringer_toggle_witness :
  let w := opened Sim.headset in
  let w' := hit_key "r" w in
  ringerstate w' = 1
  /\ requests (trace w') = transaction ++ transaction
  /\ staged_values (trace w') = [1; 1]
  /\ device_values w' = [0; 0; 1; 1].
Proof.
  cbv zeta.
  destruct (ringer_toggle (K := Sim.t) (opened Sim.headset))
    as (_ & Hr & (l1 & l2 & Et & (_ & Q1 & S1) & (_ & Q2 & S2)) & _).
  cbv zeta beta in Et.
  split; [exact Hr|]. split; [|split; [|reflexivity]]; rewrite Et.
  - rewrite requests_app. cbn [requests request_of].
    rewrite !requests_app, Q1, Q2. vm_compute. reflexivity.
  - rewrite staged_values_app. cbn [staged_values].
    rewrite !staged_values_app, S1, S2. vm_compute. reflexivity.
Defined.

(** C7 as it is worded fails.  The key [r] on a headset that is pulled
    out after four requests: the write to the ring LED goes through, the
    lookup for the ringer is refused, and the device is left with the
    ring LED at 1 and the ringer at 0, [ringerstate] being 1. *)
Lemma ringer_toggle_interrupted :
  let w := opened (Sim.with_plugged 4 Sim.headset) in
  let w' := hit_key "r" w in
  ringerstate w = 0 /\ ringerstate w' = 1
  /\ requests (trace w') = transaction ++ [GUSAGE]
  /\ staged_values (trace w') = [1]
  /\ device_values w' = [0; 0; 1; 0].
Proof.
  cbv zeta. vm_compute. repeat split.
Defined.

Lemma short_read_shuts_down_witness :
  sys_event (step short_read Event_thread) = EL_returned (-1)
  /\ run (sys_world (step short_read Event_thread)) = 0
  /\ sys_main (step (step short_read Event_thread) Main_thread)
     = Main_join 0.
Proof.
  edestruct (short_read_shuts_down (K := Sim.t) short_read 0)
    as (He & _ & _ & Hr & _ & Hm & _).
  - reflexivity.
  - reflexivity.
  - reflexivity.
  - reflexivity.
  - apply Z.ltb_lt. reflexivity.
  - reflexivity.
  - apply Z.ltb_lt. reflexivity.
  - split; [exact He|]. split; [exact Hr|exact Hm].
Defined.

(** C5, the malformed read: the device is found and opened and the
    thread is created; its first read of the device fails with -1, or
    gives four bytes.  Either way the thread returns [(void* )-1] with
    [run] set to 0, [main] leaves its loop, joins the thread with
    success, and returns 0. *)
Theorem bad_read_exit_status :
  (fst (main event_first (bad_read (-1))) = Some 0
   /\ fst (main event_first (bad_read 4)) = Some 0)
  /\ (fst (main_startup (bad_read (-1))) = None
      /\ fst (main_startup (bad_read 4)) = None)
  /\ (sys_event (run_schedule event_first (started (bad_read (-1))))
        = EL_returned (-1)
      /\ sys_event (run_schedule event_first (started (bad_read 4)))
        = EL_returned (-1))
  /\ (In (Read 3 sizeof_ev (-1)) (trace (snd (main event_first (bad_read (-1)))))
      /\ In (Read 3 sizeof_ev 4) (trace (snd (main event_first (bad_read 4)))))
  /\ (In (Pthread_join 0) (trace (snd (main event_first (bad_read (-1)))))
      /\ In (Pthread_join 0) (trace (snd (main event_first (bad_read 4))))).
Proof.
  split; [split; vm_compute; reflexivity|].
  split; [split; vm_compute; reflexivity|].
  split; [split; vm_compute; reflexivity|].
  split; split; vm_compute; tauto.
Qed.

(** * Further properties *)

Section Further.

Context {K : Type} `{Kernel K}.

(** ** Usage codes *)

Lemma usage_code_page page code :
  0 <= page < 2 ^ 16 -> 0 <= code < 2 ^ 16 ->
  Z.shiftr (make_usage_code page code) 16 = page.
Proof.
  intros Hp Hc. unfold make_usage_code, wrap_u32.
  rewrite Z.shiftl_mul_pow2 by lia.
  rewrite (Z.mod_small (page * 2 ^ 16)) by lia.
  rewrite Z.shiftr_lor, (Z.shiftr_div_pow2 code) by lia.
  rewrite (Z.div_small code) by lia.
  rewrite Z.lor_0_r, Z.shiftr_div_pow2 by lia. apply Z.div_mul. lia.
Qed.

(** X1: a usage code built from a 16-bit page and a 16-bit id, as
    [writeUsage] and [readUsage] build it, is a 32-bit value that the two
    tests of [event_loop] take apart again into that page and that id. *)
Theorem usage_code_round_trip page code :
  0 <= page < 2 ^ 16 -> 0 <= code < 2 ^ 16 ->
  Z.shiftr (make_usage_code page code) 16 = page
  /\ Z.land (make_usage_code page code) 0xFFFF = code
  /\ 0 <= make_usage_code page code < 2 ^ 32.
Proof.
  intros Hp Hc. split; [now apply usage_code_page|].
  unfold make_usage_code, wrap_u32.
  rewrite Z.shiftl_mul_pow2 by lia.
  rewrite (Z.mod_small (page * 2 ^ 16)) by lia.
  assert (Hl : Z.land (page * 2 ^ 16) (Z.ones 16) = 0).
  { rewrite Z.land_ones by lia. apply Z.mod_mul. lia. }
  assert (Hk : Z.land code (Z.ones 16) = code).
  { rewrite Z.land_ones by lia. apply Z.mod_small. lia. }
  split.
  - change 0xFFFF with (Z.ones 16).
    rewrite Z.land_lor_distr_l, Hl, Hk. reflexivity.
  - assert (Hd : Z.land (page * 2 ^ 16) code = 0).
    { rewrite <- Hk, (Z.land_comm code), Z.land_assoc, Hl. reflexivity. }
    rewrite <- Z.lxor_lor, <- Z.add_nocarry_lxor by exact Hd. lia.
Qed.

(** X2: for such a code [usagePageName] answers by the page alone: the
    four pages it knows by name, every other page as not translated. *)
Theorem usagePageName_of_page page code :
  0 <= page < 2 ^ 16 -> 0 <= code < 2 ^ 16 ->
  usagePageName (make_usage_code page code) =
    if page =? TelephonyUsagePage then "TelephonyUsagePage"%string
    else if page =? ConsumerUsagePage then "ConsumerUsagePage"%string
    else if page =? LEDUsagePage then "LEDUsagePage"%string
    else if page =? ButtonUsagePage then "ButtonUsagePage"%string
    else "not translated"%string.
Proof.
  intros Hp Hc.
  pose proof (usage_code_page page code Hp Hc) as Hs.
  unfold usagePageName. rewrite Hs.
  change 0xFFFF with (Z.ones 16). rewrite Z.land_ones by lia.
  unfold wrap_u16. rewrite !Z.mod_small by (try rewrite Z.mod_small; lia).
  reflexivity.
Qed.

(** ** What goes on the trace *)

Lemma emits_refl ok (w : World K) : emits ok w w.
Proof. exists []. split; [unfold extends; now rewrite app_nil_r|reflexivity]. Qed.

Lemma emits_trans ok (w1 w2 w3 : World K) :
  emits ok w1 w2 -> emits ok w2 w3 -> emits ok w1 w3.
Proof.
  intros (l1 & E1 & F1) (l2 & E2 & F2). exists (l1 ++ l2). split.
  - unfold extends in *. now rewrite E2, E1, app_assoc.
  - now rewrite forallb_app, F1, F2.
Qed.

Lemma emits_emit (ok : effect -> bool) e (w : World K) :
  ok e = true -> emits ok w (emit e w).
Proof. intros He. exists [e]. split; [reflexivity|]. cbn. now rewrite He. Qed.

Lemma emits_same_trace ok (w w' : World K) :
  trace w' = trace w -> emits ok w w'.
Proof.
  intros E. exists []. split; [|reflexivity].
  unfold extends. now rewrite app_nil_r.
Qed.

Lemma emits_weaken (ok ok' : effect -> bool) (w w' : World K) :
  (forall e, ok e = true -> ok' e = true) ->
  emits ok w w' -> emits ok' w w'.
Proof.
  intros Hi (l & E & F). exists l. split; [exact E|].
  rewrite forallb_forall in *. auto.
Qed.

(** A reading of the trace that skips what [ok] lets through is not
    changed by it. *)
Lemma emits_skipped {A : Type} (read : list effect -> list A) ok
  (w w' : World K) :
  (forall l1 l2, read (l1 ++ l2) = read l1 ++ read l2) ->
  (forall e, ok e = true -> read [e] = []) ->
  emits ok w w' -> read (trace w') = read (trace w).
Proof.
  intros Happ Hskip (l & E & F). unfold extends in E. rewrite E, Happ.
  assert (Hl : read l = []).
  { clear E. induction l as [|e l IH].
    - specialize (Happ [] []). cbn in Happ.
      destruct (read []); [reflexivity|].
      apply (f_equal (@List.length A)) in Happ. rewrite List.length_app in Happ.
      cbn in Happ. lia.
    - cbn in F. apply andb_true_iff in F as (Fe & Fl).
      change (e :: l) with ([e] ++ l). now rewrite Happ, Hskip, IH. }
  now rewrite Hl, app_nil_r.
Qed.

Ltac answers :=
  repeat match goal with
  | |- context [HIDIOCGUSAGE ?k ?d ?u] =>
      destruct (HIDIOCGUSAGE k d u) as [[? ?] ?]
  | |- context [HIDIOCGFIELDINFO ?k ?d ?f] =>
      destruct (HIDIOCGFIELDINFO k d f) as [[? ?] ?]
  | |- context [HIDIOCSUSAGE ?k ?d ?u] =>
      destruct (HIDIOCSUSAGE k d u) as [? ?]
  | |- context [HIDIOCSREPORT ?k ?d ?r] =>
      destruct (HIDIOCSREPORT k d r) as [? ?]
  | |- context [if ?b then _ else _] => destruct b
  | _ => progress cbn
  end.

Lemma writeUsage_traffic d rt page code v (w : World K) :
  emits is_usage_traffic w (writeUsage d rt page code v w).
Proof.
  unfold writeUsage, ioctl_GUSAGE, ioctl_GFIELDINFO, ioctl_SUSAGE,
    ioctl_SREPORT, perror, fprintf, emits, extends.
  answers;
    (eexists; split;
     [rewrite <- ?app_assoc; cbn [app]; reflexivity|reflexivity]).
Qed.

Lemma readUsage_traffic d rt page code p (w : World K) :
  emits is_usage_traffic w (readUsage d rt page code p w).
Proof.
  unfold readUsage, ioctl_GUSAGE, ioctl_GFIELDINFO, ioctl_SREPORT,
    perror, fprintf, emits, extends.
  answers;
    (eexists; split;
     [destruct p; cbn; rewrite <- ?app_assoc; cbn [app]; reflexivity
     |reflexivity]).
Qed.

(** ** writeUsage and readUsage when the device says no *)

(** X3: when the lookup of the usage fails, [writeUsage] reports it and
    makes no further request; when the lookup succeeds and the fetch of
    the field fails, it reports that and stops.  Either way the value is
    neither checked against a range nor handed to the device. *)
Theorem writeUsage_resolution_fails d rt page code v (w : World K)
  r1 u1 k1 r2 f1 k2 :
  let u0 := uref_set_key rt HID_REPORT_ID_UNKNOWN
              (make_usage_code page code) (auto_usage_ref (kernel w)) in
  let f0 := finfo_set_key (ur_report_type u1) (ur_report_id u1)
              (ur_field_index u1) (auto_field_info (kernel w)) in
  HIDIOCGUSAGE (kernel w) d u0 = (r1, u1, k1) ->
  HIDIOCGFIELDINFO k1 d f0 = (r2, f1, k2) ->
  r1 < 0 \/ r2 < 0 ->
  let w' := writeUsage d rt page code v w in
  trace w' = trace w ++
    (if r1 <? 0
     then [Ioctl_GUSAGE d u0 r1; Perror "HIDIOCGUSAGE" (errno k1)]
     else [Ioctl_GUSAGE d u0 r1; Ioctl_GFIELDINFO d f0 r2;
           Perror "HIDIOCGFIELDINFO" (errno k2)])
  /\ kernel w' = (if r1 <? 0 then k1 else k2)
  /\ staged_values (trace w') = staged_values (trace w).
Proof.
  intros u0 f0 E1 E2 Hr w'.
  assert (Hw : w' =
    if r1 <? 0
    then perror "HIDIOCGUSAGE"
           (emit (Ioctl_GUSAGE d u0 r1) (set_kernel k1 w))
    else perror "HIDIOCGFIELDINFO"
           (emit (Ioctl_GFIELDINFO d f0 r2) (set_kernel k2
              (emit (Ioctl_GUSAGE d u0 r1) (set_kernel k1 w))))).
  { subst w'. unfold writeUsage, ioctl_GUSAGE, ioctl_GFIELDINFO.
    fold u0. rewrite E1. cbn.
    destruct (Z.ltb_spec r1 0); [reflexivity|].
    fold f0. rewrite E2. cbn.
    destruct (Z.ltb_spec r2 0); [reflexivity|lia]. }
  assert (Ht : trace w' = trace w ++
    (if r1 <? 0
     then [Ioctl_GUSAGE d u0 r1; Perror "HIDIOCGUSAGE" (errno k1)]
     else [Ioctl_GUSAGE d u0 r1; Ioctl_GFIELDINFO d f0 r2;
           Perror "HIDIOCGFIELDINFO" (errno k2)])).
  { rewrite Hw. destruct (r1 <? 0); cbn; now rewrite <- ?app_assoc. }
  split; [exact Ht|]. split.
  - rewrite Hw. now destruct (r1 <? 0).
  - rewrite Ht. clear. induction (trace w) as [|e l IH].
    + now destruct (r1 <? 0).
    + destruct e; cbn; now rewrite ?IH.
Qed.

(** X4: [readUsage] never hands a value to the device.  Its requests are
    the lookup, the fetch of the field, the read of the value and then a
    commit of the report, cut short at the first one that fails: after a
    value has been read the report is committed all the same. *)
Theorem readUsage_requests d rt page code p (w : World K) :
  let u0 := uref_set_key rt HID_REPORT_ID_UNKNOWN
              (make_usage_code page code) (auto_usage_ref (kernel w)) in
  let '(r1, u1, k1) := HIDIOCGUSAGE (kernel w) d u0 in
  let f0 := finfo_set_key (ur_report_type u1) (ur_report_id u1)
              (ur_field_index u1) (auto_field_info (kernel w)) in
  let '(r2, _, k2) := HIDIOCGFIELDINFO k1 d f0 in
  let '(r3, _, _) := HIDIOCGUSAGE k2 d u1 in
  exists l,
    extends w l (readUsage d rt page code p w)
    /\ requests l =
         firstn (if r1 <? 0 then 1 else if r2 <? 0 then 2
                 else if r3 <? 0 then 3 else 4) read_transaction
    /\ staged_values l = [].
Proof.
  cbv zeta.
  unfold readUsage, ioctl_GUSAGE, ioctl_GFIELDINFO, ioctl_SREPORT,
    perror, fprintf, extends.
  cbn.
  destruct (HIDIOCGUSAGE _ _ _) as [[r1 u1] k1]; cbn.
  destruct (HIDIOCGFIELDINFO _ _ _) as [[r2 f1] k2]; cbn.
  destruct (HIDIOCGUSAGE k2 d u1) as [[r3 u2] k3]; cbn.
  destruct (r1 <? 0); cbn.
  { eexists. split; [rewrite <- ?app_assoc; cbn [app]; reflexivity|].
    now split. }
  destruct (r2 <? 0); cbn.
  { eexists. split; [rewrite <- ?app_assoc; cbn [app]; reflexivity|].
    now split. }
  destruct (r3 <? 0); cbn.
  { eexists. split; [rewrite <- ?app_assoc; cbn [app]; reflexivity|].
    now split. }
  destruct (HIDIOCSREPORT _ _ _) as [r4 k4]; cbn.
  destruct (r4 <? 0); destruct p; cbn;
    (eexists; split; [rewrite <- ?app_assoc; cbn [app]; reflexivity|];
     now split).
Qed.

(** ** Events and keys, all of them *)

Lemma writeUsage_other_ints d rt page code v (w : World K) :
  other_ints (writeUsage d rt page code v w) = other_ints w.
Proof. apply (writeUsage_same_vars d rt page code v w). Qed.

Ltac vars :=
  repeat first
    [ progress cbn [fd mutestate hookstate ringerstate run kernel trace
                    other_ints emit set_kernel set_fd set_mutestate
                    set_hookstate set_ringerstate set_run fprintf perror
                    pthread_mutex_lock pthread_mutex_unlock fflush usleep
                    fcntl_nonblock]
    | rewrite writeUsage_fd | rewrite writeUsage_mutestate
    | rewrite writeUsage_hookstate | rewrite writeUsage_ringerstate
    | rewrite writeUsage_run | rewrite writeUsage_other_ints ].

Ltac branches :=
  repeat (vars; cbn [Ascii.eqb Bool.eqb];
          try match goal with
              | |- context [if ?b then _ else _] => destruct b eqn:?
              end).

Ltac on_key key c :=
  destruct (Ascii.eqb_spec key c) as [->|?];
  [branches; try reflexivity|].

(** Building up [emits] along the calls of a handler. *)
Ltac emits_steps :=
  repeat match goal with
  | |- emits _ ?w ?w => apply emits_refl
  | |- emits ?ok ?w (emit _ ?x) =>
      apply (emits_trans ok w x); [|apply emits_emit; reflexivity]
  | |- emits ?ok ?w (set_hookstate _ ?x) =>
      apply (emits_trans ok w x); [|apply emits_same_trace; reflexivity]
  | |- emits ?ok ?w (set_mutestate _ ?x) =>
      apply (emits_trans ok w x); [|apply emits_same_trace; reflexivity]
  | |- emits ?ok ?w (set_ringerstate _ ?x) =>
      apply (emits_trans ok w x); [|apply emits_same_trace; reflexivity]
  | |- emits ?ok ?w (set_run _ ?x) =>
      apply (emits_trans ok w x); [|apply emits_same_trace; reflexivity]
  | |- emits ?ok ?w (set_fd _ ?x) =>
      apply (emits_trans ok w x); [|apply emits_same_trace; reflexivity]
  | |- emits ?ok ?w (set_kernel _ ?x) =>
      apply (emits_trans ok w x); [|apply emits_same_trace; reflexivity]
  | |- emits ?ok ?w (writeUsage _ _ _ _ _ ?x) =>
      apply (emits_trans ok w x);
      [|eapply emits_weaken; [|apply writeUsage_traffic];
        let e := fresh in let He := fresh in
        intros e He; destruct e; (discriminate He || reflexivity)]
  | |- emits ?ok ?w (readUsage _ _ _ _ _ ?x) =>
      apply (emits_trans ok w x);
      [|eapply emits_weaken; [|apply readUsage_traffic];
        let e := fresh in let He := fresh in
        intros e He; destruct e; (discriminate He || reflexivity)]
  end.

Lemma phone_mute_tests h :
  (Z.shiftr h 16 =? TelephonyUsagePage)
  && (Z.land h 0xFFFF =? Tel_Phone_Mute) = (h =? 0x000B002F).
Proof.
  change TelephonyUsagePage with 11. change Tel_Phone_Mute with 47.
  rewrite Z.shiftr_div_pow2 by lia.
  change 0xFFFF with (Z.ones 16). rewrite Z.land_ones by lia.
  pose proof (Z.div_mod h (2 ^ 16)) as D.
  destruct (Z.eqb_spec (h / 2 ^ 16) 11), (Z.eqb_spec (h mod 2 ^ 16) 47),
    (Z.eqb_spec h 0x000B002F); cbn; try reflexivity; exfalso; try lia.
  all: subst h; auto.
Qed.

(** The body of [event_loop] for one event, in terms of the two events
    it acts on. *)
Lemma event_loop_event_cases ev (w : World K) :
  let out := writeUsage (fd w) HID_REPORT_TYPE_OUTPUT in
  event_loop_event ev w =
    pthread_mutex_unlock
      (if is_hook_switch ev then
         if negb (hookstate w =? ev_value ev) then
           fprintf stdout
             (if ev_value ev =? 0 then "--> Hook in place\n"
              else "--> Hook lifted\n") []
             (set_hookstate (ev_value ev)
                (out LEDUsagePage Led_Off_Hook (ev_value ev)
                   (if hookstate w =? 0
                    then out TelephonyUsagePage Tel_Ringer 0
                           (out LEDUsagePage Led_Ring 0
                              (pthread_mutex_lock w))
                    else pthread_mutex_lock w)))
         else pthread_mutex_lock w
       else if is_phone_mute ev then
         if ev_value ev =? 1 then
           fprintf stdout
             (if c_not (mutestate w) =? 0 then "--> Unmuted\n"
              else "--> Muted\n") []
             (out LEDUsagePage Led_Mute (c_not (mutestate w))
                (set_mutestate (c_not (mutestate w))
                   (pthread_mutex_lock w)))
         else pthread_mutex_lock w
       else if (Z.shiftr (hid ev) 16 =? ConsumerUsagePage)
               && (Z.land (hid ev) 0xFFFF =? Con_Volume_Decr)
               && c_true (ev_value ev) then
         fprintf stdout "Volume decrement = 0x%x\n" [PInt (ev_value ev)]
           (pthread_mutex_lock w)
       else if (Z.shiftr (hid ev) 16 =? ConsumerUsagePage)
               && (Z.land (hid ev) 0xFFFF =? Con_Volume_Incr)
               && c_true (ev_value ev) then
         fprintf stdout "Volume increment = 0x%x\n" [PInt (ev_value ev)]
           (pthread_mutex_lock w)
       else pthread_mutex_lock w).
Proof.
  intros out. subst out.
  unfold is_hook_switch, is_phone_mute.
  rewrite <- hook_switch_tests, <- phone_mute_tests.
  unfold event_loop_event. change (c_true 0) with false. cbv zeta iota.
  destruct (Z.eqb_spec (Z.shiftr (hid ev) 16) TelephonyUsagePage) as [Ep|Np].
  - rewrite Ep. change (TelephonyUsagePage =? ConsumerUsagePage) with false.
    cbn [andb].
    destruct (Z.eqb_spec (Z.land (hid ev) 65535) Tel_Hook_Switch) as [Ei|Ni].
    + vars. destruct (hookstate w =? ev_value ev); cbn [negb];
        [reflexivity|].
      destruct (hookstate w =? 0); vars; now destruct (ev_value ev =? 0).
    + destruct (Z.land (hid ev) 65535 =? Tel_Phone_Mute); [|reflexivity].
      vars. destruct (ev_value ev =? 1); [|reflexivity].
      now destruct (c_not (mutestate w) =? 0).
  - cbn [andb].
    destruct (Z.shiftr (hid ev) 16 =? ConsumerUsagePage); cbn [andb];
      [|reflexivity].
    destruct (Z.eqb_spec (Z.land (hid ev) 65535) Con_Volume_Decr) as [Ed|Nd];
      cbn [andb].
    + rewrite Ed. change (Con_Volume_Decr =? Con_Volume_Incr) with false.
      cbn [andb]. now destruct (c_true (ev_value ev)).
    + destruct (Z.land (hid ev) 65535 =? Con_Volume_Incr); cbn [andb];
        [|reflexivity].
      now destruct (c_true (ev_value ev)).
Qed.

Lemma lock_marks_app l1 l2 :
  lock_marks (l1 ++ l2) = lock_marks l1 ++ lock_marks l2.
Proof. apply filter_app. Qed.

Lemma no_lock_marks l : forallb no_lock_mark l = true -> lock_marks l = [].
Proof.
  induction l as [|e l IH]; [reflexivity|]. cbn.
  unfold no_lock_mark at 1. intros F.
  apply andb_true_iff in F as (Fe & Fl).
  destruct (is_lock_mark e); [discriminate|]. now apply IH.
Qed.

(** X5: an event that is neither the hook switch nor the mute button
    (the volume keys, every other usage) is at most logged: it takes the
    lock and gives it back, sends nothing to the device and leaves every
    variable of the program as it was. *)
Theorem other_events_inert ev (w : World K) :
  is_hook_switch ev = false ->
  is_phone_mute ev = false ->
  let w' := event_loop_event ev w in
  kernel w' = kernel w
  /\ vars_of w' = vars_of w
  /\ requests (trace w') = requests (trace w)
  /\ emits lock_or_print w w'.
Proof.
  intros Hh Hm w'. subst w'.
  rewrite event_loop_event_cases. cbv zeta. rewrite Hh, Hm.
  assert (He : forall w0 : World K, w0 =
      pthread_mutex_unlock
        (if (Z.shiftr (hid ev) 16 =? ConsumerUsagePage)
            && (Z.land (hid ev) 65535 =? Con_Volume_Decr)
            && c_true (ev_value ev)
         then fprintf stdout "Volume decrement = 0x%x\n"
                [PInt (ev_value ev)] (pthread_mutex_lock w)
         else if (Z.shiftr (hid ev) 16 =? ConsumerUsagePage)
                 && (Z.land (hid ev) 65535 =? Con_Volume_Incr)
                 && c_true (ev_value ev)
         then fprintf stdout "Volume increment = 0x%x\n"
                [PInt (ev_value ev)] (pthread_mutex_lock w)
         else pthread_mutex_lock w) ->
      emits lock_or_print w w0).
  { intros w0 ->.
    unfold pthread_mutex_unlock, pthread_mutex_lock, fprintf.
    repeat match goal with
           | |- context [if ?b then _ else _] => destruct b
           end; emits_steps. }
  split; [|split; [|split]].
  - repeat match goal with
           | |- context [if ?b then _ else _] => destruct b
           end; reflexivity.
  - repeat match goal with
           | |- context [if ?b then _ else _] => destruct b
           end; reflexivity.
  - apply (emits_skipped requests lock_or_print).
    + apply requests_app.
    + intros e. destruct e; cbn; (discriminate || reflexivity).
    + now apply He.
  - now apply He.
Qed.

Lemma hit_key_fd key (w : World K) : fd (hit_key key w) = fd w.
Proof.
  unfold hit_key. cbv zeta.
  on_key key "o"%char. on_key key "m"%char. on_key key "r"%char.
  branches; reflexivity.
Qed.

Lemma hit_key_other_ints key (w : World K) :
  other_ints (hit_key key w) = other_ints w.
Proof.
  unfold hit_key. cbv zeta.
  on_key key "o"%char. on_key key "m"%char. on_key key "r"%char.
  branches; reflexivity.
Qed.

(** The variables after one arrival depend on the variables before it
    and on the arrival, and on nothing the device answers. *)
Lemma process_vars (w : World K) a :
  vars_of (process w a) = vars_step (vars_of w) a.
Proof.
  destruct a as [ev|key]; cbn [process]; unfold vars_step, vars_of.
  - rewrite event_loop_event_cases. cbv zeta.
    destruct (is_hook_switch ev) eqn:Eh.
    + assert (Em : is_phone_mute ev = false).
      { unfold is_hook_switch, is_phone_mute in *.
        apply Z.eqb_eq in Eh. rewrite Eh. reflexivity. }
      rewrite Em. cbn [andb].
      destruct (Z.eqb_spec (hookstate w) (ev_value ev)) as [E|N];
        cbn [negb]; vars; [now rewrite <- E|].
      destruct (hookstate w =? 0); destruct (ev_value ev =? 0); vars;
        reflexivity.
    + destruct (is_phone_mute ev); cbn [andb].
      * destruct (ev_value ev =? 1); [|reflexivity].
        destruct (c_not (mutestate w) =? 0); vars; reflexivity.
      * repeat match goal with
               | |- context [if ?b then _ else _] => destruct b
               end; reflexivity.
  - rewrite <- (hit_key_hookstate key w), <- (hit_key_mutestate key w),
      <- (hit_key_ringerstate key w), <- (hit_key_run key w).
    now rewrite hit_key_fd, hit_key_other_ints.
Qed.

(** X6: a key other than [o], [m] and [r] takes no lock, sends nothing
    to the device and leaves the call state alone; of the program's
    variables only [run] can change, and only [q] changes it, to 0. *)
Theorem other_keys_inert key (w : World K) :
  key <> "o"%char -> key <> "m"%char -> key <> "r"%char ->
  let w' := hit_key key w in
  kernel w' = kernel w
  /\ vars_of w' =
       (fd w, mutestate w, hookstate w, ringerstate w,
        (if Ascii.eqb key "q" then 0 else run w), other_ints w)
  /\ requests (trace w') = requests (trace w)
  /\ lock_marks (trace w') = lock_marks (trace w).
Proof.
  intros No Nm Nr w'.
  assert (Hw : w' =
    if Ascii.eqb key "q" then set_run 0 w
    else if Ascii.eqb key "?" then
      fprintf stdout " ? = this help\n" []
        (fprintf stdout " q = quit\n" []
           (fprintf stdout " r = ringer tooggle\n" []
              (fprintf stdout " m = mute tooggle\n" []
                 (fprintf stdout " o = offhook tooggle\n" []
                    (fprintf stdout "Usage:\n" [] w)))))
    else w).
  { subst w'. unfold hit_key.
    destruct (Ascii.eqb_spec key "o"); [contradiction|].
    destruct (Ascii.eqb_spec key "m"); [contradiction|].
    destruct (Ascii.eqb_spec key "r"); [contradiction|].
    reflexivity. }
  assert (He : emits is_print w w').
  { rewrite Hw. unfold fprintf.
    destruct (Ascii.eqb key "q"); [emits_steps|].
    destruct (Ascii.eqb key "?"); emits_steps. }
  split; [|split; [|split]].
  - rewrite Hw. destruct (Ascii.eqb key "q"); [reflexivity|].
    now destruct (Ascii.eqb key "?").
  - rewrite Hw. destruct (Ascii.eqb key "q"); [reflexivity|].
    now destruct (Ascii.eqb key "?").
  - apply (emits_skipped requests is_print); [apply requests_app| |exact He].
    intros e. destruct e; cbn; (discriminate || reflexivity).
  - apply (emits_skipped lock_marks is_print);
      [apply lock_marks_app| |exact He].
    intros e. destruct e; cbn; (discriminate || reflexivity).
Qed.

(** The events and the keys [o], [m], [r] do their work between taking
    the lock and giving it back. *)
Lemma event_under_lock ev (w : World K) :
  exists body,
    event_loop_event ev w = pthread_mutex_unlock body
    /\ emits no_lock_mark (pthread_mutex_lock w) body.
Proof.
  rewrite event_loop_event_cases. cbv zeta.
  eexists. split; [reflexivity|].
  unfold fprintf.
  repeat match goal with
         | |- context [if ?b then _ else _] => destruct b
         end; emits_steps.
Qed.

Lemma key_under_lock key (w : World K) :
  key = "o"%char \/ key = "m"%char \/ key = "r"%char ->
  exists body,
    hit_key key w = pthread_mutex_unlock body
    /\ emits no_lock_mark (pthread_mutex_lock w) body.
Proof.
  intros [-> | [-> | ->]]; unfold hit_key; cbn [Ascii.eqb Bool.eqb];
    cbv zeta iota; (eexists; split; [reflexivity|]); unfold fprintf;
    repeat match goal with
           | |- context [if ?b then _ else _] => destruct b
           end; emits_steps.
Qed.

(** X8: every event, and each of the keys [o], [m] and [r], is handled
    between one taking of the lock and one giving back: the lock is
    taken first, given back last and not touched in between, so every
    request to the device made for it lies inside, and no path leaves
    with the lock held.  Every other key takes no lock and makes no
    request. *)
Theorem handlers_hold_the_lock (a : arrival) (w : World K) :
  exists l,
    extends w l (process w a)
    /\ match a with
       | Hardware _ => under_lock l
       | User key =>
           if Ascii.eqb key "o" || Ascii.eqb key "m" || Ascii.eqb key "r"
           then under_lock l
           else lock_marks l = [] /\ requests l = []
       end.
Proof.
  assert (Hlocked : forall w' body : World K,
    w' = pthread_mutex_unlock body ->
    emits no_lock_mark (pthread_mutex_lock w) body ->
    exists l, extends w l w' /\ under_lock l).
  { intros w' body -> (mid & E & F).
    exists (Mutex_lock :: mid ++ [Mutex_unlock]). split.
    - unfold extends in *. cbn [trace pthread_mutex_unlock emit].
      rewrite E. cbn [trace pthread_mutex_lock emit].
      rewrite <- !app_assoc. reflexivity.
    - exists mid. split; [reflexivity|]. now apply no_lock_marks. }
  destruct a as [ev|key]; cbn [process].
  - destruct (event_under_lock ev w) as (body & E & Hb).
    exact (Hlocked _ body E Hb).
  - destruct (Ascii.eqb_spec key "o") as [Eo|No].
    { destruct (key_under_lock key w (or_introl Eo)) as (body & E & Hb).
      exact (Hlocked _ body E Hb). }
    destruct (Ascii.eqb_spec key "m") as [Em|Nm].
    { destruct (key_under_lock key w (or_intror (or_introl Em)))
        as (body & E & Hb).
      exact (Hlocked _ body E Hb). }
    destruct (Ascii.eqb_spec key "r") as [Er|Nr].
    { destruct (key_under_lock key w (or_intror (or_intror Er)))
        as (body & E & Hb).
      exact (Hlocked _ body E Hb). }
    cbn [orb].
    assert (He : emits is_print w (hit_key key w)).
    { unfold hit_key.
      destruct (Ascii.eqb_spec key "o"); [contradiction|].
      destruct (Ascii.eqb_spec key "m"); [contradiction|].
      destruct (Ascii.eqb_spec key "r"); [contradiction|].
      unfold fprintf. destruct (Ascii.eqb key "q"); [emits_steps|].
      destruct (Ascii.eqb key "?"); emits_steps. }
    destruct He as (l & El & F). exists l. split; [exact El|].
    clear El. induction l as [|e l IH]; [now split|].
    cbn in F. apply andb_true_iff in F as (Fe & Fl).
    destruct (IH Fl) as (I1 & I2).
    destruct e; try discriminate Fe. cbn. now split.
Qed.

(** ** The event thread *)

Lemma batch_steps ev rd (k : nat) : forall (i : Z) (w : World K),
  0 <= i -> i + Z.of_nat k <= rd / sizeof_ev0 ->
  event_loop_steps k (EL_for ev rd i) w =
    (EL_for ev rd (i + Z.of_nat k),
     serialized (map (fun j => Hardware (ev j)) (seq (Z.to_nat i) k)) w).
Proof.
  induction k as [|k IH]; intros i w Hi Hk.
  - cbn. now rewrite Z.add_0_r.
  - cbn [event_loop_steps event_loop_step].
    destruct (Z.ltb_spec i (rd / sizeof_ev0)); [|lia].
    rewrite IH by lia.
    replace (i + 1 + Z.of_nat k) with (i + Z.of_nat (S k)) by lia.
    replace (Z.to_nat (i + 1)) with (S (Z.to_nat i)) by lia.
    reflexivity.
Qed.

Lemma event_loop_steps_snoc (m : nat) : forall pc (w : World K),
  event_loop_steps (S m) pc w =
    let '(pc', w') := event_loop_steps m pc w in event_loop_step pc' w'.
Proof.
  induction m as [|m IH]; intros pc w.
  - cbn. now destruct (event_loop_step pc w).
  - change (event_loop_steps (S (S m)) pc w)
      with (let '(p1, w1) := event_loop_step pc w in
            event_loop_steps (S m) p1 w1).
    change (event_loop_steps (S m) pc w)
      with (let '(p1, w1) := event_loop_step pc w in
            event_loop_steps m p1 w1).
    destruct (event_loop_step pc w) as [p1 w1]. apply IH.
Qed.

(** X9: one wake-up of the event thread.  When [run] is set, [select]
    says the device is readable and [read] gives at least one whole
    event, the thread handles the events in slots 0 to [rd / 8 - 1] of
    the buffer, each under the lock and in that order, flushes stdout and
    is back at the head of its loop; bytes after the last whole event
    are not looked at. *)
Theorem wake_up_cycle (w : World K) rd0 k1 rd ev k2 :
  run w = 1 ->
  sys_select (kernel w) (fd w + 1) = (rd0, k1) -> 0 < rd0 ->
  sys_read_events k1 (fd w) sizeof_ev = (rd, ev, k2) ->
  sizeof_ev0 <= rd ->
  let n := Z.to_nat (rd / sizeof_ev0) in
  let w1 := emit (Read (fd w) sizeof_ev rd)
              (set_kernel k2
                 (emit (Select (fd w + 1) rd0) (set_kernel k1 w))) in
  event_loop_steps (S (S n)) EL_while w =
    (EL_while, fflush stdout (serialized (batch ev n) w1)).
Proof.
  intros Hr Hsel Hrd0 Hread Hrd n w1.
  assert (Hq : 1 <= rd / sizeof_ev0).
  { apply Z.div_le_lower_bound; unfold sizeof_ev0 in *; lia. }
  assert (H1 : event_loop_step EL_while w = (EL_for ev rd 0, w1)).
  { cbn [event_loop_step]. rewrite Hr. change (1 =? 1) with true. cbv iota.
    unfold select, sys. rewrite Hsel.
    destruct (Z.gtb_spec rd0 0); [|lia].
    unfold read_events.
    cbn [fd kernel emit set_kernel]. rewrite Hread.
    destruct (Z.ltb_spec rd sizeof_ev0); [lia|reflexivity]. }
  change (event_loop_steps (S (S n)) EL_while w)
    with (let '(pc', w') := event_loop_step EL_while w in
          event_loop_steps (S n) pc' w').
  rewrite H1.
  rewrite event_loop_steps_snoc, (batch_steps ev rd n 0 w1) by (subst n; lia).
  cbn [event_loop_step].
  destruct (Z.ltb_spec (0 + Z.of_nat n) (rd / sizeof_ev0));
    [subst n; lia|].
  reflexivity.
Qed.

Lemma main_step_run pc b (w : World K) :
  run (snd (main_step pc b w)) = run w \/ run (snd (main_step pc b w)) = 0.
Proof.
  destruct pc as [rv|rv|rv|st]; cbn [main_step].
  - left. cbn [snd]. vars. now rewrite hit_key_run.
  - destruct (run w =? 1); [|now left].
    unfold read_char. destruct (sys_read_char (kernel w)) as [[n c] k].
    cbn [snd]. vars. destruct (n =? 1); [|now left].
    rewrite hit_key_run. destruct (Ascii.eqb c "q"); [now right|now left].
  - destruct (sys_pthread_join (kernel w)) as [r k].
    destruct (c_true r || b); [|now left].
    left. destruct (c_true r); cbn [snd]; unfold close; vars; reflexivity.
  - now left.
Qed.

Lemma event_loop_step_run pc (w : World K) :
  run (snd (event_loop_step pc w)) = run w
  \/ run (snd (event_loop_step pc w)) = 0.
Proof.
  destruct pc as [|ev rd i|r]; cbn [event_loop_step].
  - destruct (run w =? 1); [|now left].
    unfold select, sys. destruct (sys_select (kernel w) (fd w + 1)) as [rd k].
    destruct (rd >? 0); [|now left].
    unfold read_events. cbn [fd kernel emit set_kernel].
    destruct (sys_read_events k (fd w) sizeof_ev) as [[n ev] k2].
    destruct (n <? sizeof_ev0); [now right|now left].
  - destruct (i <? rd / sizeof_ev0); cbn [snd]; vars; left;
      [apply event_loop_event_run|reflexivity].
  - now left.
Qed.

(** X10: neither thread is left behind.  In every run of the two threads
    from a point where the event thread has not returned and [main] has
    not yet reached [pthread_join], whenever the event thread has
    returned or [main] is at or past [pthread_join], [run] is not 1.  So
    [main] leaves its polling loop at the next test after the thread has
    gone, and the thread returns 0 at its next loop head after [main]
    has begun to join. *)
Theorem no_thread_left_behind sch (s : System K) :
  returned (sys_event s) = false ->
  joining (sys_main s) = false ->
  let s' := run_schedule sch s in
  (returned (sys_event s') || joining (sys_main s') = true ->
   run (sys_world s') <> 1)
  /\ (returned (sys_event s') = true ->
      forall rv, sys_main s' = Main_while rv ->
      step s' Main_thread
        = {| sys_world := sys_world s'; sys_main := Main_join rv;
             sys_event := sys_event s' |})
  /\ (forall rv, sys_main s' = Main_join rv ->
      sys_event s' = EL_while ->
      step s' Event_thread
        = {| sys_world := sys_world s'; sys_main := Main_join rv;
             sys_event := EL_returned 0 |}).
Proof.
  intros Hev Hmn s'.
  assert (Hinv : returned (sys_event s') || joining (sys_main s') = true ->
                 run (sys_world s') <> 1).
  { subst s'. unfold run_schedule.
    assert (H0 : returned (sys_event s) || joining (sys_main s) = true ->
                 run (sys_world s) <> 1).
    { rewrite Hev, Hmn. discriminate. }
    clear Hev Hmn. revert s H0.
    induction sch as [|t sch IH]; intros s H0; cbn [fold_left];
      [exact H0|].
    apply IH. clear IH. unfold step.
    destruct (exited (sys_main s)) eqn:Hex; [exact H0|].
    destruct t.
    - pose proof (main_step_run (sys_main s) (returned (sys_event s))
                    (sys_world s)) as Hrun.
      destruct (sys_main s) as [rv|rv|rv|st]; cbn [main_step] in *;
        cbn [joining exited] in *; try discriminate.
      + cbn [sys_event sys_main sys_world joining snd] in *.
        rewrite orb_false_r in *. intros Hr. specialize (H0 Hr).
        destruct Hrun as [-> | ->]; [exact H0|discriminate].
      + destruct (Z.eqb_spec (run (sys_world s)) 1) as [E1|N1].
        * destruct (read_char (sys_world s)) as [[n c] w1].
          cbn [sys_event sys_main sys_world joining snd] in *.
          rewrite orb_false_r in *. intros Hr. specialize (H0 Hr).
          contradiction.
        * cbn [sys_event sys_main sys_world]. intros _. exact N1.
      + destruct (sys_pthread_join (kernel (sys_world s))) as [r k].
        destruct (c_true r || returned (sys_event s)).
        * destruct (c_true r); cbn [sys_event sys_main sys_world snd] in *;
            intros _; (destruct Hrun as [-> | ->];
                       [apply H0; apply orb_true_r|discriminate]).
        * exact H0.
    - pose proof (event_loop_step_run (sys_event s) (sys_world s)) as Hrun.
      destruct (sys_event s) as [|ev rd i|r]; cbn [event_loop_step] in *.
      + destruct (Z.eqb_spec (run (sys_world s)) 1) as [E1|N1].
        * destruct (select _ _) as [rd w1].
          destruct (rd >? 0).
          -- destruct (read_events _ _ _) as [[n ev] w2].
             destruct (n <? sizeof_ev0).
             ++ cbn [sys_event sys_main sys_world]. intros _.
                cbn [run set_run]. discriminate.
             ++ cbn [sys_event sys_main sys_world returned orb] in *.
                intros Hj. specialize (H0 Hj). contradiction.
          -- cbn [sys_event sys_main sys_world returned orb] in *.
             intros Hj. specialize (H0 Hj). contradiction.
        * cbn [sys_event sys_main sys_world]. intros _. exact N1.
      + destruct (i <? rd / sizeof_ev0);
          cbn [sys_event sys_main sys_world returned orb snd] in *;
          intros Hj; specialize (H0 Hj);
          (destruct Hrun as [-> | ->]; [exact H0|discriminate]).
      + cbn [sys_event sys_main sys_world]. exact H0. }
  split; [exact Hinv|]. split.
  - intros Hret rv Hm. unfold step. rewrite Hm. cbn [exited main_step].
    rewrite Hret in Hinv. specialize (Hinv eq_refl).
    destruct (Z.eqb_spec (run (sys_world s')) 1); [contradiction|].
    reflexivity.
  - intros rv Hm He. unfold step. rewrite Hm, He.
    cbn [exited event_loop_step].
    rewrite Hm in Hinv. cbn [joining] in Hinv.
    rewrite orb_true_r in Hinv. specialize (Hinv eq_refl).
    destruct (Z.eqb_spec (run (sys_world s')) 1); [contradiction|].
    reflexivity.
Qed.

(** *** The way out by [q] *)










(** ** Finding the device *)

Lemma opened_paths_app l1 l2 :
  opened_paths (l1 ++ l2) = opened_paths l1 ++ opened_paths l2.
Proof.
  induction l1 as [|e l1 IH]; [reflexivity|].
  destruct e; cbn; now rewrite ?IH.
Qed.

Lemma closed_fds_app l1 l2 :
  closed_fds (l1 ++ l2) = closed_fds l1 ++ closed_fds l2.
Proof.
  induction l1 as [|e l1 IH]; [reflexivity|].
  destruct e; cbn; now rewrite ?IH.
Qed.

Ltac probes :=
  repeat match goal with
  | |- context [sys_open ?k ?p] => destruct (sys_open k p) as [? ?]
  | |- context [HIDIOCGDEVINFO ?k ?d] =>
      destruct (HIDIOCGDEVINFO k d) as [[? ?] ?]
  | |- context [HIDIOCGNAME ?k ?d] =>
      destruct (HIDIOCGNAME k d) as [[? ?] ?]
  | |- context [HIDIOCGVERSION ?k ?d] =>
      destruct (HIDIOCGVERSION k d) as [? ?]
  | |- context [if ?b then _ else _] => destruct b
  | _ => progress cbn
  end.

(** X12: what [doListDev] answers.  It gives 1 exactly when the node
    opens, none of its three ioctls returns -1 and the vendor is Jabra's;
    otherwise 0 or -1.  A node that does not open is not asked anything:
    when [errno] is [ENOENT] the call is silent and gives 0, on any other
    failure it gives -1 after a message that names HIDIOCGVERSION. *)
Theorem doListDev_verdict path (w : World K) :
  let '(d, k0) := sys_open (kernel w) path in
  let '(r1, info, k1) := HIDIOCGDEVINFO k0 d in
  let '(r2, _, k2) := HIDIOCGNAME k1 d in
  let '(r3, _) := HIDIOCGVERSION k2 d in
  let r := fst (doListDev path w) in
  (r = -1 \/ r = 0 \/ r = 1)
  /\ (r = 1 <->
      d <> -1 /\ r1 <> -1 /\ r2 <> -1 /\ r3 <> -1
      /\ vendor info = JABRA_VID)
  /\ (d = -1 ->
      r = (if errno k0 =? ENOENT then 0 else -1)
      /\ trace (snd (doListDev path w)) = trace w ++
           Open path d ::
           (if errno k0 =? ENOENT then []
            else [Perror "ioctl HIDIOCGVERSION" (errno k0)])).
Proof.
  unfold doListDev, open, ioctl_GDEVINFO, ioctl_GNAME, ioctl_GVERSION,
    sys, perror.
  destruct (sys_open (kernel w) path) as [d k0].
  cbn [kernel emit set_kernel].
  destruct (HIDIOCGDEVINFO k0 d) as [[r1 info] k1].
  cbn [kernel emit set_kernel].
  destruct (HIDIOCGNAME k1 d) as [[r2 name] k2].
  cbn [kernel emit set_kernel]. cbv beta.
  destruct (HIDIOCGVERSION k2 d) as [r3 k3].
  cbv zeta.
  destruct (Z.eqb_spec d (-1)) as [Ed|Nd]; cbn [negb].
  - destruct (errno k0 =? ENOENT); cbn [fst snd trace emit set_kernel];
      rewrite <- ?app_assoc; cbn [app];
      (split; [auto|]);
      (split; [split; [discriminate|intros (Hd & _); contradiction]|]);
      intros _; split; reflexivity.
  - destruct (Z.eqb_spec r1 (-1)) as [E1|N1]; cbn [fst].
    { split; [auto|]. split; [|contradiction].
      split; [discriminate|]. intros (_ & H1 & _). contradiction. }
    destruct (Z.eqb_spec r2 (-1)) as [E2|N2]; cbn [fst].
    { split; [auto|]. split; [|contradiction].
      split; [discriminate|]. intros (_ & _ & H2 & _). contradiction. }
    destruct (Z.eqb_spec r3 (-1)) as [E3|N3]; cbn [fst].
    { split; [auto|]. split; [|contradiction].
      split; [discriminate|]. intros (_ & _ & _ & H3 & _). contradiction. }
    destruct (Z.eqb_spec (vendor info) JABRA_VID) as [Ev|Nv]; cbn [fst].
    + split; [auto|]. split; [|contradiction].
      split; [intros _; repeat split; assumption|reflexivity].
    + split; [auto|]. split; [|contradiction].
      split; [discriminate|]. intros (_ & _ & _ & _ & Hv). contradiction.
Qed.

Lemma doListDev_opens path (w : World K) :
  exists l, extends w l (snd (doListDev path w))
    /\ opened_paths l = [path] /\ closed_fds l = [].
Proof.
  unfold doListDev, open, ioctl_GDEVINFO, ioctl_GNAME, ioctl_GVERSION,
    sys, perror, extends.
  probes;
    (eexists; split;
     [rewrite <- ?app_assoc; cbn [app]; reflexivity|now split]).
Qed.

Lemma indices_cons i n : indices i (S n) = i :: indices (i + 1) n.
Proof.
  unfold indices. cbn [seq map]. rewrite Z.add_0_r. f_equal.
  rewrite <- seq_shift, map_map. apply map_ext. intros t. lia.
Qed.

Lemma main_for_bounds (n : nat) : forall (i : Z) (w : World K),
  i <= fst (main_for n i w) <= i + Z.of_nat n.
Proof.
  induction n as [|n IH]; intros i w; cbn [main_for].
  - cbn. lia.
  - destruct (doListDev (device_path i) w) as [r w1].
    destruct (r =? 1); [cbn; lia|].
    specialize (IH (i + 1) w1). lia.
Qed.

(** X13: the scan of [main].  Its [for] loop ends with an index between
    where it started and the bound; it has opened the nodes numbered
    from the start up to the index it stopped at, or all of them below
    the bound when it ran through, in rising order, and it has closed
    none of them.  From 0 with the bound 19 that is hiddev0 to hiddev18
    at most: hiddev19 is never tried. *)
Theorem device_scan_opens (n : nat) (i : Z) (w : World K) :
  let j := fst (main_for n i w) in
  let w' := snd (main_for n i w) in
  i <= j <= i + Z.of_nat n
  /\ exists l,
       extends w l w'
       /\ closed_fds l = []
       /\ opened_paths l =
            map device_path
              (indices i (if j <? i + Z.of_nat n
                          then S (Z.to_nat (j - i)) else n)).
Proof.
  cbv zeta. split; [apply main_for_bounds|].
  revert i w. induction n as [|n IH]; intros i w; cbn [main_for].
  - exists []. cbn [fst snd].
    destruct (Z.ltb_spec i (i + Z.of_nat 0)); [lia|].
    split; [unfold extends; now rewrite app_nil_r|now split].
  - destruct (doListDev_opens (device_path i) w) as (l0 & E0 & O0 & C0).
    destruct (doListDev (device_path i) w) as [r w1]. cbn [snd] in E0.
    destruct (r =? 1).
    + exists l0. cbn [fst snd]. split; [exact E0|]. split; [exact C0|].
      destruct (Z.ltb_spec i (i + Z.of_nat (S n))); [|lia].
      rewrite Z.sub_diag. cbn. now rewrite Z.add_0_r.
    + destruct (IH (i + 1) w1) as (l1 & E1 & C1 & O1).
      pose proof (main_for_bounds n (i + 1) w1) as Hb.
      exists (l0 ++ l1). split; [|split].
      * unfold extends in *. now rewrite E1, E0, app_assoc.
      * now rewrite closed_fds_app, C0, C1.
      * rewrite opened_paths_app, O0, O1. cbn [app].
        set (j := fst (main_for n (i + 1) w1)) in *.
        destruct (Z.ltb_spec j (i + 1 + Z.of_nat n)),
          (Z.ltb_spec j (i + Z.of_nat (S n))); try lia.
        -- replace (Z.to_nat (j - i)) with (S (Z.to_nat (j - (i + 1))))
             by lia.
           now rewrite (indices_cons i).
        -- now rewrite (indices_cons i).
Qed.

(** X14: the scan stops at the first node that [doListDev] accepts.
    Every node before the index it ends with was probed, in the world
    the earlier probes left, and gave something other than 1; and when
    the index is below the bound, the probe of that node gave 1 and is
    the last thing done. *)
Theorem device_scan_first_match (n : nat) (i : Z) (w : World K) :
  let j := fst (main_for n i w) in
  let w' := snd (main_for n i w) in
  (forall t : nat,
     Z.of_nat t < j - i ->
     main_for t i w = (i + Z.of_nat t, snd (main_for t i w))
     /\ fst (doListDev (device_path (i + Z.of_nat t))
               (snd (main_for t i w))) <> 1)
  /\ (j < i + Z.of_nat n ->
      doListDev (device_path j) (snd (main_for (Z.to_nat (j - i)) i w))
        = (1, w')).
Proof.
  cbv zeta. revert i w. induction n as [|n IH]; intros i w.
  - cbn [main_for fst snd]. split; [intros t Ht; lia|intros Hj; lia].
  - pose proof (main_for_bounds (S n) i w) as Hb.
    cbn [main_for] in *.
    destruct (doListDev (device_path i) w) as [r w1] eqn:Ed.
    destruct (Z.eqb_spec r 1) as [E1|N1].
    + cbn [fst snd]. split; [intros t Ht; lia|]. intros _.
      rewrite Z.sub_diag. cbn [Z.to_nat main_for snd].
      now rewrite Ed, E1.
    + destruct (IH (i + 1) w1) as (Hbefore & Hat).
      pose proof (main_for_bounds n (i + 1) w1) as Hb1.
      set (j := fst (main_for n (i + 1) w1)) in *.
      split.
      * intros [|t] Ht.
        -- cbn [main_for snd Z.of_nat]. rewrite Z.add_0_r, Ed.
           split; [reflexivity|exact N1].
        -- cbn [main_for]. rewrite Ed.
           destruct (Z.eqb_spec r 1); [contradiction|].
           replace (i + Z.of_nat (S t)) with (i + 1 + Z.of_nat t) by lia.
           apply Hbefore. lia.
      * intros Hj.
        replace (Z.to_nat (j - i)) with (S (Z.to_nat (j - (i + 1))))
          by lia.
        cbn [main_for]. rewrite Ed.
        destruct (Z.eqb_spec r 1); [contradiction|].
        apply Hat. lia.
Qed.

(** ** Opening the device *)

Lemma readUsage_fd d rt page code p (w : World K) :
  fd (readUsage d rt page code p w) = fd w.
Proof.
  unfold readUsage, ioctl_GUSAGE, ioctl_GFIELDINFO, ioctl_SREPORT,
    perror, fprintf.
  answers; try reflexivity; destruct p; reflexivity.
Qed.

Lemma emits_keeps ok e (w w' : World K) :
  emits ok w w' -> In e (trace w) -> In e (trace w').
Proof.
  intros (l & E & _) Hin. unfold extends in E. rewrite E.
  apply in_or_app. now left.
Qed.

Lemma readUsage_keeps e d rt page code p (w : World K) :
  In e (trace w) -> In e (trace (readUsage d rt page code p w)).
Proof. apply (emits_keeps is_usage_traffic), readUsage_traffic. Qed.

Lemma readUsage_looks_up d rt page code p (w : World K) :
  exists u r,
    In (Ioctl_GUSAGE d u r) (trace (readUsage d rt page code p w))
    /\ ur_usage_code u = make_usage_code page code.
Proof.
  exists (uref_set_key rt HID_REPORT_ID_UNKNOWN (make_usage_code page code)
            (auto_usage_ref (kernel w))).
  unfold readUsage, ioctl_GUSAGE, ioctl_GFIELDINFO, ioctl_SREPORT,
    perror, fprintf.
  destruct (HIDIOCGUSAGE (kernel w) d _) as [[r1 u1] k1]. exists r1.
  split; [|reflexivity].
  answers; try destruct p; cbn;
    rewrite <- ?app_assoc; apply in_or_app; right; now left.
Qed.

(** X15: [main] gives up on a failed open only for [EACCES].  When the
    scan has found a node and opening it then fails with any other
    [errno], [main] keeps the negative descriptor in [fd] and goes on
    with it: it sends HIDIOCINITREPORT and the usage lookups to that
    descriptor and creates the event thread. *)
Theorem main_goes_on_without_device (w w1 : World K) i d k :
  main_for 19 0 w = (i, w1) -> i <> 19 ->
  sys_open (kernel w1) (device_path i) = (d, k) ->
  d < 0 -> errno k <> EACCES ->
  let w' := snd (main_startup w) in
  fd w' = d
  /\ (exists r, In (Ioctl_other d "HIDIOCINITREPORT" r) (trace w'))
  /\ (exists u r, In (Ioctl_GUSAGE d u r) (trace w')
                  /\ ur_usage_code u = code_Led_Mute)
  /\ (exists r, In (Pthread_create r) (trace w')).
Proof.
  intros Hfor Hi Hopen Hd He w'. subst w'.
  unfold main_startup. rewrite Hfor.
  destruct (Z.eqb_spec i 19); [contradiction|].
  unfold open, ioctl_INITREPORT, ioctl_GNAME, pthread_create, sys.
  cbn [kernel fprintf emit set_kernel]. rewrite Hopen.
  cbn [kernel fd trace fprintf emit set_kernel set_fd].
  destruct (Z.ltb_spec d 0); [|lia].
  destruct (Z.eqb_spec (errno k) EACCES); [contradiction|].
  cbn [andb]. cbv beta.
  destruct (HIDIOCINITREPORT k d) as [r0 k0].
  cbn [kernel fd trace fprintf emit set_kernel set_fd].
  destruct (HIDIOCGNAME k0 d) as [[r1 name] k2].
  cbn [kernel fd trace fprintf emit set_kernel set_fd set_mutestate
       set_hookstate set_ringerstate mutestate hookstate ringerstate].
  rewrite !readUsage_fd.
  cbn [kernel fd trace fprintf emit set_kernel set_fd set_mutestate
       set_hookstate set_ringerstate mutestate hookstate ringerstate].
  rewrite ?readUsage_fd.
  cbn [kernel fd trace fprintf emit set_kernel set_fd set_mutestate
       set_hookstate set_ringerstate mutestate hookstate ringerstate].
  match goal with
  | |- context [readUsage d HID_REPORT_TYPE_OUTPUT LEDUsagePage Led_Mute
                  Addr_mutestate ?x] => set (w3 := x)
  end.
  set (a1 := readUsage d HID_REPORT_TYPE_OUTPUT LEDUsagePage Led_Mute
               Addr_mutestate w3).
  assert (Hinit : In (Ioctl_other d "HIDIOCINITREPORT" r0) (trace a1)).
  { apply readUsage_keeps. subst w3. cbn.
    rewrite <- !app_assoc. apply in_or_app. right. cbn. tauto. }
  destruct (readUsage_looks_up d HID_REPORT_TYPE_OUTPUT LEDUsagePage
              Led_Mute Addr_mutestate w3) as (u & r & Hu & Hc).
  fold a1 in Hu.
  set (a2 := readUsage d HID_REPORT_TYPE_OUTPUT LEDUsagePage Led_Off_Hook
               Addr_hookstate _).
  assert (H2 : forall e, In e (trace a1) -> In e (trace a2)).
  { intros e Hin. apply readUsage_keeps. cbn.
    apply in_or_app. now left. }
  set (a3 := readUsage d HID_REPORT_TYPE_OUTPUT LEDUsagePage Led_Ring
               Addr_ringerstate _).
  assert (H3 : forall e, In e (trace a2) -> In e (trace a3)).
  { intros e Hin. apply readUsage_keeps. cbn.
    apply in_or_app. now left. }
  destruct (sys_pthread_create (kernel a3)) as [rc kc].
  assert (Hfd3 : fd a3 = d).
  { subst a3 a2 a1 w3.
    repeat first
      [ rewrite readUsage_fd
      | progress cbn [fd emit fprintf set_ringerstate set_hookstate
                      set_mutestate set_kernel set_fd] ].
    reflexivity. }
  destruct (c_true rc); cbn [snd]; unfold close;
    cbn [kernel fd trace fprintf emit set_kernel];
    (split; [exact Hfd3|]);
    (split; [exists r0|split; [exists u, r; split; [|exact Hc]|exists rc]]);
    rewrite <- ?app_assoc;
    try (apply in_or_app; left; apply H3, H2; assumption);
    apply in_or_app; right; cbn; tauto.
Qed.

(** ** What main returns *)

(** X16: the value [main] returns.  When the start-up ends early [main]
    returns -1 and no thread step is taken.  Once the event thread has
    been created the value is decided by [pthread_join] alone: 0 when
    the join gave 0, -1 when a join gave something else; what the event
    thread returned does not enter into it. *)
Theorem exit_status_decided_by_join sch (w : World K) :
  match fst (main_startup w), main sch w with
  | Some st0, (r, w') => st0 = -1 /\ r = Some (-1)
                         /\ w' = snd (main_startup w)
  | None, (Some st, w') =>
      (st = 0 /\ In (Pthread_join 0) (trace w'))
      \/ (st = -1 /\ exists r, r <> 0 /\ In (Pthread_join r) (trace w'))
  | None, (None, _) => True
  end.
Proof.
  destruct (main_startup w) as [[st0|] w1] eqn:Es; cbn [fst].
  - pose proof (main_startup_status w w1 st0 Es) as ->.
    unfold main. rewrite Es. cbn [snd]. now repeat split.
  - exact (main_returns_by_join sch w w1 Es).
Qed.

End Further.

Section TwoDevices.

Context {K : Type} `{Kernel K} {K' : Type} `{Kernel K'}.

(** X7: what is stored as call state never depends on the device.  Two
    runs that start from the same variables and take the same events and
    keys end with the same variables, whatever their devices answer to
    the writes, and whether the writes succeed or fail. *)
Theorem call_state_ignores_device (l : list arrival)
  (w : World K) (w' : World K') :
  vars_of w = vars_of w' ->
  vars_of (serialized l w) = vars_of (serialized l w').
Proof.
  unfold serialized. revert w w'.
  induction l as [|a l IH]; intros w w' E; cbn [fold_left]; [exact E|].
  apply IH. now rewrite !process_vars, E.
Qed.

End TwoDevices.

(** ** Runs for the further properties *)

Lemma usage_code_round_trip_witness :
  Z.shiftr (make_usage_code LEDUsagePage Led_Mute) 16 = LEDUsagePage
  /\ Z.land (make_usage_code LEDUsagePage Led_Mute) 0xFFFF = Led_Mute.
Proof.
  destruct (usage_code_round_trip LEDUsagePage Led_Mute) as (Hp & Hc & _).
  - split; [apply Z.leb_le|apply Z.ltb_lt]; reflexivity.
  - split; [apply Z.leb_le|apply Z.ltb_lt]; reflexivity.
  - split; [exact Hp|exact Hc].
Defined.

Lemma usagePageName_of_page_witness :
  usagePageName (make_usage_code 0x000D 0x0001) = "not translated"%string.
Proof.
  rewrite (usagePageName_of_page 0x000D 0x0001).
  - reflexivity.
  - split; [apply Z.leb_le|apply Z.ltb_lt]; reflexivity.
  - split; [apply Z.leb_le|apply Z.ltb_lt]; reflexivity.
Defined.

(** Writing to a headset that has been pulled out. *)
Lemma writeUsage_resolution_fails_witness :
  let w := opened (Sim.with_plugged 0 Sim.headset) in
  let w' := writeUsage 3 HID_REPORT_TYPE_OUTPUT LEDUsagePage Led_Mute 1 w in
  requests (trace w') = [GUSAGE] /\ staged_values (trace w') = [].
Proof.
  cbv zeta.
  edestruct (writeUsage_resolution_fails (K := Sim.t) 3
               HID_REPORT_TYPE_OUTPUT LEDUsagePage Led_Mute 1
               (opened (Sim.with_plugged 0 Sim.headset)))
    as (Ht & _ & Hs).
  - reflexivity.
  - reflexivity.
  - left. apply Z.ltb_lt. reflexivity.
  - split; [rewrite Ht; reflexivity|exact Hs].
Defined.

Lemma other_events_inert_witness :
  let w := opened Sim.headset in
  vars_of (event_loop_event (volume_up 1) w) = vars_of w
  /\ requests (trace (event_loop_event (volume_up 1) w)) = [].
Proof.
  cbv zeta.
  destruct (other_events_inert (K := Sim.t) (volume_up 1)
              (opened Sim.headset) eq_refl eq_refl) as (_ & Hv & Hr & _).
  split; [exact Hv|exact Hr].
Defined.

Lemma other_keys_inert_witness :
  let w := opened Sim.headset in
  run (hit_key "q" w) = 0
  /\ requests (trace (hit_key "q" w)) = []
  /\ lock_marks (trace (hit_key "q" w)) = [].
Proof.
  cbv zeta.
  destruct (other_keys_inert (K := Sim.t) "q" (opened Sim.headset))
    as (_ & Hv & Hr & Hl); try discriminate.
  split; [|split; [exact Hr|exact Hl]].
  apply (f_equal (fun v => snd (fst v))) in Hv. exact Hv.
Defined.

(** The same keys and events on a headset that answers and on one that
    has been pulled out. *)
Lemma call_state_ignores_device_witness :
  let l := [User "m"%char; Hardware (hook_switch 1); User "r"%char] in
  vars_of (serialized l (opened Sim.headset))
  = vars_of (serialized l (opened (Sim.with_plugged 0 Sim.headset))).
Proof.
  cbv zeta.
  apply (call_state_ignores_device (K := Sim.t) (K' := Sim.t)).
  reflexivity.
Defined.

Lemma wake_up_cycle_witness :
  event_loop_steps 3 EL_while one_and_a_half
  = (EL_while,
     fflush stdout
       (event_loop_event (hook_switch 1)
          (snd (event_loop_step EL_while one_and_a_half)))).
Proof.
  refine (wake_up_cycle (K := Sim.t) one_and_a_half 1 _ 12 _ _
            eq_refl eq_refl _ eq_refl _).
  - apply Z.ltb_lt. reflexivity.
  - apply Z.leb_le. reflexivity.
Defined.

Lemma no_thread_left_behind_witness :
  let s' := run_schedule event_first short_read in
  returned (sys_event s') = true /\ run (sys_world s') <> 1.
Proof.
  cbv zeta.
  destruct (no_thread_left_behind (K := Sim.t) event_first short_read
              eq_refl eq_refl) as (Hinv & _).
  assert (Hret : returned (sys_event (run_schedule event_first short_read))
                 = true) by (vm_compute; reflexivity).
  split; [exact Hret|]. apply Hinv. rewrite Hret. reflexivity.
Defined.


(** The node opens for the scan and is gone when [main] opens it. *)
Lemma main_goes_on_without_device_witness :
  fd (snd (main_startup (Vanishing.boot 1))) = -1
  /\ In (Ioctl_other (-1) "HIDIOCINITREPORT" (-1))
       (trace (snd (main_startup (Vanishing.boot 1))))
  /\ In (Pthread_create 0) (trace (snd (main_startup (Vanishing.boot 1)))).
Proof.
  edestruct (main_goes_on_without_device (K := Vanishing.t)
               (Vanishing.boot 1)
               (snd (main_for 19 0 (Vanishing.boot 1))) 0)
    as (Hfd & _).
  - vm_compute. reflexivity.
  - discriminate.
  - vm_compute. reflexivity.
  - apply Z.ltb_lt. reflexivity.
  - vm_compute. discriminate.
  - split; [exact Hfd|]. split; vm_compute; tauto.
Defined.
